(** * discovery-service: job topologies, their persistence and the endpoint guards

    A shallow embedding of [backend/app.py], [backend/search/io_tools.py] and
    [backend/search/redis_tools.py].  Request handlers are functions in a
    state-and-exception monad over a [World] that holds the object store, the
    unit metadata, the persisted topologies and the execution backend.  The
    handlers reach their collaborators through module objects ([search.io_tools]
    and [db]), as the Python code does through attribute access, so every
    handler takes the module objects as arguments.

    Two kinds of module objects are used.  [io_tools.module] and
    [redis_tools.module] are the two files as they are written: the first
    reads an unbound name in [table_exists], the second does not import and
    defines none of the functions [app.py] calls on it.  [io_tools.repaired]
    and [memory_store] meet the interfaces the handlers were written
    against; they show what the handlers do once their collaborators
    answer.

    [app.py] imports the store file when it is loaded (line 19), so with the
    store file as written the application has no handlers at all: [app.load]
    and [app.serve] model the load, and what the program as written does
    with a request is stated through them.  A handler applied to
    [redis_tools.module] is the handler's own code with every store call
    failing as the import fails; before its first store call such a run can
    give guard responses the program as written never gives. *)

From Stdlib Require Import ZArith.
From stdpp Require Import base option list gmap strings pretty.

Set Warnings "-register-all".

(** ** Exceptions and outcomes *)

Inductive exn :=
  | SyntaxError (module : string) (line : nat)
  | AttributeError (module attr : string)
  | NameError (name : string)
  | TypeError (what : string)
  | NoSuchKey
  | NoSuchBucket
  | BackendUnavailable (task_id : string).

Inductive outcome (A : Type) :=
  | Return (a : A)
  | Raise (e : exn).
Arguments Return {A} a.
Arguments Raise {A} e.

Global Instance exn_eq_dec : EqDecision exn.
Proof. solve_decision. Defined.

(** ** Module objects: what a Python source file binds at its top level *)

Inductive stmt :=
  | SImport (binds : list string)      (* import m / import m as x / from m import a, b *)
  | SFromImportNothing (m : string)    (* from m import <end of line>: not a statement *)
  | SAssign (target : string)
  | SExpr
  | SDef (fname : string).

Inductive binding := BFunction | BObject.

Record PyModule := { mod_name : string; mod_body : list (nat * stmt) }.

Definition parses (s : stmt) : bool :=
  match s with SFromImportNothing _ => false | _ => true end.

(** The whole file is parsed before any of it runs. *)
Fixpoint compile (name : string) (body : list (nat * stmt)) : outcome unit :=
  match body with
  | [] => Return tt
  | (line, s) :: rest =>
      if parses s then compile name rest else Raise (SyntaxError name line)
  end.

Definition bind_names (ns : gmap string binding) (s : stmt) : gmap string binding :=
  match s with
  | SImport binds => foldl (λ acc x, <[x := BObject]> acc) ns binds
  | SAssign x => <[x := BObject]> ns
  | SDef f => <[f := BFunction]> ns
  | SFromImportNothing _ | SExpr => ns
  end.

Definition module_dict (m : PyModule) : gmap string binding :=
  foldl (λ ns ls, bind_names ns ls.2) ∅ (mod_body m).

(** The functions a file defines. *)
Definition defined_functions (m : PyModule) : list string :=
  omap (λ ls, match ls.2 with SDef f => Some f | _ => None end) (mod_body m).

Definition import_module (m : PyModule) : outcome (gmap string binding) :=
  match compile (mod_name m) (mod_body m) with
  | Return _ => Return (module_dict m)
  | Raise e => Raise e
  end.

(** A file with the statements that do not parse taken out. *)
Definition without_syntax_errors (m : PyModule) : PyModule :=
  {| mod_name := mod_name m;
     mod_body := List.filter (λ ls, parses ls.2) (mod_body m) |}.

(** [m.attr] for a module that has to be imported first. *)
Definition getattr_module (m : PyModule) (attr : string) : outcome binding :=
  match import_module m with
  | Raise e => Raise e
  | Return ns =>
      match ns !! attr with
      | Some b => Return b
      | None => Raise (AttributeError (mod_name m) attr)
      end
  end.

(** Names every module sees without importing them. *)
Definition builtins : list string :=
  [ "abs"; "aiter"; "all"; "anext"; "any"; "ascii"; "bin"; "bool"; "breakpoint";
    "bytearray"; "bytes"; "callable"; "chr"; "classmethod"; "compile"; "complex";
    "delattr"; "dict"; "dir"; "divmod"; "enumerate"; "eval"; "exec"; "filter";
    "float"; "format"; "frozenset"; "getattr"; "globals"; "hasattr"; "hash";
    "help"; "hex"; "id"; "input"; "int"; "isinstance"; "issubclass"; "iter";
    "len"; "list"; "locals"; "map"; "max"; "memoryview"; "min"; "next"; "object";
    "oct"; "open"; "ord"; "pow"; "print"; "property"; "range"; "repr";
    "reversed"; "round"; "set"; "setattr"; "slice"; "sorted"; "staticmethod";
    "str"; "sum"; "super"; "tuple"; "type"; "vars"; "zip"; "__import__";
    "None"; "True"; "False"; "Ellipsis"; "NotImplemented"; "__debug__";
    "BaseException"; "Exception"; "ArithmeticError"; "AssertionError";
    "AttributeError"; "EOFError"; "ImportError"; "IndexError"; "KeyError";
    "KeyboardInterrupt"; "LookupError"; "MemoryError"; "ModuleNotFoundError";
    "NameError"; "NotImplementedError"; "OSError"; "OverflowError";
    "RecursionError"; "RuntimeError"; "StopIteration"; "SyntaxError";
    "SystemExit"; "TypeError"; "UnboundLocalError"; "ValueError";
    "ZeroDivisionError"; "ConnectionError"; "TimeoutError"; "Warning" ].

Inductive pyval :=
  | VStr (s : string)
  | VGlobal (name : string) (b : binding)
  | VBuiltin (name : string).

(** Name lookup inside a function body: locals, then the globals of the
    defining module, then the builtins. *)
Definition load_name (locals : gmap string pyval) (globals : gmap string binding)
    (x : string) : outcome pyval :=
  match locals !! x with
  | Some v => Return v
  | None =>
      match globals !! x with
      | Some b => Return (VGlobal x b)
      | None =>
          if bool_decide (x ∈ builtins) then Return (VBuiltin x)
          else Raise (NameError x)
      end
  end.

(** ** Data held by the collaborators *)

(** Unit metadata, the dictionary written by [redis_tools.add_table]. *)
Record Table := {
  table_name : string;
  table_path : string;
  table_bucket : string;
  column_count : nat;
  nodes : gmap string string
}.

(** Celery signatures: [task.s(args)] and the immutable [task.si(args)]. *)
Record Signature := { task : string; args : list string; immutable : bool }.

Module Task.
Definition s (t : string) (a : list string) : Signature :=
  {| task := t; args := a; immutable := false |}.
Definition si (t : string) (a : list string) : Signature :=
  {| task := t; args := a; immutable := true |}.
End Task.

(** Arguments a task body is called with: a mutable signature gets the
    result of what ran before it prepended, an immutable one does not. *)
Inductive pyarg := Lit (v : string) | Upstream (result : string).

Definition call_args (sg : Signature) (upstream : option string) : list pyarg :=
  match upstream with
  | Some r => if immutable sg then Lit <$> args sg else Upstream r :: (Lit <$> args sg)
  | None => Lit <$> args sg
  end.

(** Celery result handles. *)
Inductive Result :=
  | AsyncResult (id : string) (parent : option Result)
  | GroupResult (id : string) (parent : option Result) (results : list Result).

(** The nested tuple [((id, parent), nodes)] produced by [as_tuple]. *)
Inductive rtuple :=
  | RTuple (id : string) (parent : option rtuple) (children : option (list rtuple)).

Fixpoint as_tuple (r : Result) : rtuple :=
  match r with
  | AsyncResult id parent =>
      RTuple id (match parent with Some p => Some (as_tuple p) | None => None end) None
  | GroupResult id parent results =>
      RTuple id (match parent with Some p => Some (as_tuple p) | None => None end)
             (Some (List.map as_tuple results))
  end.

Fixpoint result_from_tuple (r : rtuple) : Result :=
  match r with
  | RTuple i parent children =>
      let parent' :=
        match parent with
        | Some p => Some (result_from_tuple p)
        | None => None
        end in
      match children with
      | Some l => GroupResult i parent' (List.map result_from_tuple l)
      | None => AsyncResult i parent'
      end
  end.

(** A task handed to the execution backend: its identifier, what to run, and
    the identifiers it waits for (the header of a chord, the previous link
    of a chain). *)
Record Job := { job_id : string; job_sig : Signature; job_after : list string }.

Inductive State := PENDING | STARTED | SUCCESS | FAILURE.

(** ** The world the handlers act on *)

Record World := {
  minio_objects : gmap string (list string);  (* bucket ↦ object names, in listing order *)
  table_metadata : gmap string Table;         (* unit metadata, keyed by table path *)
  celery_tasks : gmap string rtuple;          (* persisted topologies, keyed by root id *)
  broker : list Job;                          (* submitted jobs, oldest first *)
  saved_groups : gmap string (list string);   (* GroupResult.save() *)
  uuid_counter : nat;                         (* source of fresh identifiers *)
  task_states : gmap string State;            (* live state per job *)
  unreachable : gset string;                  (* jobs whose state query fails *)
  logged : list string
}.

Definition set_table_metadata (f : gmap string Table → gmap string Table) (w : World) : World :=
  {| minio_objects := minio_objects w; table_metadata := f (table_metadata w);
     celery_tasks := celery_tasks w; broker := broker w;
     saved_groups := saved_groups w; uuid_counter := uuid_counter w;
     task_states := task_states w; unreachable := unreachable w; logged := logged w |}.

Definition set_celery_tasks (f : gmap string rtuple → gmap string rtuple) (w : World) : World :=
  {| minio_objects := minio_objects w; table_metadata := table_metadata w;
     celery_tasks := f (celery_tasks w); broker := broker w;
     saved_groups := saved_groups w; uuid_counter := uuid_counter w;
     task_states := task_states w; unreachable := unreachable w; logged := logged w |}.

Definition set_broker (f : list Job → list Job) (w : World) : World :=
  {| minio_objects := minio_objects w; table_metadata := table_metadata w;
     celery_tasks := celery_tasks w; broker := f (broker w);
     saved_groups := saved_groups w; uuid_counter := uuid_counter w;
     task_states := task_states w; unreachable := unreachable w; logged := logged w |}.

Definition set_saved_groups (f : gmap string (list string) → gmap string (list string))
    (w : World) : World :=
  {| minio_objects := minio_objects w; table_metadata := table_metadata w;
     celery_tasks := celery_tasks w; broker := broker w;
     saved_groups := f (saved_groups w); uuid_counter := uuid_counter w;
     task_states := task_states w; unreachable := unreachable w; logged := logged w |}.

Definition set_uuid_counter (f : nat → nat) (w : World) : World :=
  {| minio_objects := minio_objects w; table_metadata := table_metadata w;
     celery_tasks := celery_tasks w; broker := broker w;
     saved_groups := saved_groups w; uuid_counter := f (uuid_counter w);
     task_states := task_states w; unreachable := unreachable w; logged := logged w |}.

Definition set_unreachable (f : gset string → gset string) (w : World) : World :=
  {| minio_objects := minio_objects w; table_metadata := table_metadata w;
     celery_tasks := celery_tasks w; broker := broker w;
     saved_groups := saved_groups w; uuid_counter := uuid_counter w;
     task_states := task_states w; unreachable := f (unreachable w); logged := logged w |}.

Definition set_logged (f : list string → list string) (w : World) : World :=
  {| minio_objects := minio_objects w; table_metadata := table_metadata w;
     celery_tasks := celery_tasks w; broker := broker w;
     saved_groups := saved_groups w; uuid_counter := uuid_counter w;
     task_states := task_states w; unreachable := unreachable w; logged := f (logged w) |}.

(** ** State and exceptions *)

Definition M (A : Type) : Type := World → outcome A * World.

Global Instance M_ret : MRet M := λ A a w, (Return a, w).
Global Instance M_bind : MBind M := λ A B f m w,
  match m w with
  | (Return a, w') => f a w'
  | (Raise e, w') => (Raise e, w')
  end.

Definition raise {A} (e : exn) : M A := λ w, (Raise e, w).
Definition lift {A} (o : outcome A) : M A := λ w, (o, w).
Definition modify (f : World → World) : M unit := λ w, (Return tt, f w).
Definition gets {A} (f : World → A) : M A := λ w, (Return (f w), w).

(** [try: body except E: handler]; [handler e] is [None] when no clause
    matches [e], which then keeps propagating. *)
Definition try_except {A} (body : M A) (handler : exn → option (M A)) : M A := λ w,
  match body w with
  | (Raise e, w') =>
      match handler e with
      | Some h => h w'
      | None => (Raise e, w')
      end
  | r => r
  end.

(** [m.attr(...)]: import, attribute lookup, then the body of the [def]
    when the file has one ([None]: the file has no [def] of that name). *)
Definition module_call {A} (m : PyModule) (attr : string) (def_body : option (M A)) : M A :=
  match getattr_module m attr, def_body with
  | Raise e, _ => raise e
  | Return BFunction, Some body => body
  | Return _, _ => raise (TypeError (attr +:+ " is not callable"))
  end.

(** The exception a call [m.attr(...)] ends with when the file has no [def]
    of that name. *)
Definition call_error (m : PyModule) (attr : string) : exn :=
  match getattr_module m attr with
  | Raise e => e
  | Return _ => TypeError (attr +:+ " is not callable")
  end.

Module logging.
Definition info (msg : string) : M unit := modify (set_logged (λ l, l ++ [msg])).
End logging.

(** ** The MinIO client, as the object-store adapter uses it *)

Module minio_client.
(** Bucket names are taken to be well formed: the check of the name the
    client makes before it asks the server, and the error it raises for a
    malformed one, are outside the sources and are not modelled. *)
Definition bucket_exists (bucket : string) : M bool :=
  gets (λ w, bool_decide (is_Some (minio_objects w !! bucket))).

(** [list_objects(bucket, recursive=True)], already reduced to the names. *)
Definition list_objects (bucket : string) : M (list string) := λ w,
  match minio_objects w !! bucket with
  | Some l => (Return l, w)
  | None => (Raise NoSuchBucket, w)
  end.

Definition stat_object (bucket path : pyval) : M unit := λ w,
  match bucket, path with
  | VStr b, VStr p =>
      match minio_objects w !! b with
      | None => (Raise NoSuchBucket, w)
      | Some l => if bool_decide (p ∈ l) then (Return tt, w) else (Raise NoSuchKey, w)
      end
  | _, _ => (Raise (TypeError "stat_object"), w)
  end.
End minio_client.

(** ** The collaborators as the handlers see them *)

(** [search.io_tools], the object-store adapter. *)
Record IoTools := {
  io_bucket_exists : string → M bool;
  io_table_exists : string → string → M bool;
  io_get_tables : string → M (list string)
}.

(** [db], the store of unit metadata and persisted topologies. *)
Record Store := {
  db_table_exists : string → M bool;
  db_get_table : string → M (option Table);
  db_get_celery_task : string → M (option rtuple);
  db_save_celery_task : string → rtuple → M unit;
  db_purge : M unit
}.

(** ** backend/search/io_tools.py as written *)

Module io_tools.
Definition source : PyModule :=
  {| mod_name := "backend.search.io_tools";
     mod_body :=
       [ (1, SImport ["dd"]); (2, SImport ["pd"]); (4, SImport ["StringIO"]);
         (6, SImport ["NoSuchKey"]); (8, SImport ["minio"]); (9, SImport ["dask"]);
         (13, SDef "table_exists"); (21, SDef "get_tables");
         (26, SDef "bucket_exists"); (30, SDef "get_df"); (49, SDef "get_ddf");
         (68, SDef "get_unique_values") ] |}.

Definition name (locals : gmap string pyval) (x : string) : M pyval :=
  lift (load_name locals (module_dict source) x).

(** Lines 13-18, with the second name read on line 15 left open.  The
    client object [minio.minio_client] of [backend/clients/minio.py] is
    taken to exist. *)
Definition table_exists_reading (second : string) (bucket table_path : string) : M bool :=
  let locals : gmap string pyval :=
    {[ "bucket" := VStr bucket; "table_path" := VStr table_path ]} in
  try_except
    (_ ← name locals "minio";
     b ← name locals "bucket";
     p ← name locals second;
     minio_client.stat_object b p;;
     mret true)
    (λ e, if decide (e = NoSuchKey) then Some (mret false) else None).

(** Line 15 is [minio.minio_client.stat_object(bucket, path)]. *)
Definition table_exists : string → string → M bool := table_exists_reading "path".

(** Lines 21-23. *)
Definition get_tables (bucket : string) : M (list string) :=
  let locals : gmap string pyval := {[ "bucket" := VStr bucket ]} in
  _ ← name locals "minio";
  b ← name locals "bucket";
  match b with
  | VStr b => minio_client.list_objects b
  | _ => raise (TypeError "list_objects")
  end.

(** Lines 26-27. *)
Definition bucket_exists (bucket : string) : M bool :=
  let locals : gmap string pyval := {[ "bucket" := VStr bucket ]} in
  _ ← name locals "minio";
  b ← name locals "bucket";
  match b with
  | VStr b => minio_client.bucket_exists b
  | _ => raise (TypeError "bucket_exists")
  end.

Definition module : IoTools :=
  {| io_bucket_exists b := module_call source "bucket_exists" (Some (bucket_exists b));
     io_table_exists b p := module_call source "table_exists" (Some (table_exists b p));
     io_get_tables b := module_call source "get_tables" (Some (get_tables b)) |}.

(** The adapter the handlers were written against: line 15 reading the
    parameter [table_path]. *)
Definition repaired : IoTools :=
  {| io_bucket_exists := io_bucket_exists module;
     io_table_exists b p :=
       module_call source "table_exists" (Some (table_exists_reading "table_path" b p));
     io_get_tables := io_get_tables module |}.
End io_tools.

(** ** backend/search/redis_tools.py as written

    Line 6 is [from redis import] with nothing after it.  The only [def] of
    the file is [add_table] (line 57); [save_celery_task], [get_celery_task],
    [get_table], [table_exists] and [purge] are inside comments. *)

Module redis_tools.
Definition source : PyModule :=
  {| mod_name := "backend.search.redis_tools";
     mod_body :=
       [ (1, SImport ["logging"]); (2, SImport ["literal_eval"]);
         (4, SImport ["Dict"; "List"; "Optional"]);
         (6, SFromImportNothing "redis");
         (7, SImport ["TypedDict"]); (9, SImport ["redis"]);
         (20, SImport ["redis"]); (22, SAssign "data"); (28, SAssign "r");
         (29, SExpr); (30, SAssign "doc"); (31, SAssign "dog");
         (32, SAssign "scientific_name"); (57, SDef "add_table") ] |}.

(** The five names [app.py] calls on [db], none of which the file defines. *)
Definition module_of (m : PyModule) : Store :=
  {| db_table_exists _ := module_call m "table_exists" None;
     db_get_table _ := module_call m "get_table" None;
     db_get_celery_task _ := module_call m "get_celery_task" None;
     db_save_celery_task _ _ := module_call m "save_celery_task" None;
     db_purge := module_call m "purge" None |}.

(** The store calls of the file as written, each on its own: the file is
    imported, which fails, at the call.  In the program the import is made
    once, when [app.py] is loaded (see [app.load]), and no handler runs. *)
Definition module : Store := module_of source.

(** [db] if line 6 were not in the file: the import goes through and the
    five names are still unbound. *)
Definition importable : Store := module_of (without_syntax_errors source).
End redis_tools.

(** ** Celery, as the handlers use it

    Identifiers are fresh per submission.  A chord sends its header jobs,
    names the group, and registers the body to run after the header, for a
    header of any size; the handle it returns is the body's, whose parent is
    the header's group.  A chain sends its links in order, each waiting for
    the one before; the handle it returns is the last link's. *)

Definition result_id (r : Result) : string :=
  match r with AsyncResult i _ | GroupResult i _ _ => i end.

Definition result_parent (r : Result) : option Result :=
  match r with AsyncResult _ p | GroupResult _ p _ => p end.

Module celery.
Definition uuid : M string := λ w,
  (Return ("task-" +:+ pretty (uuid_counter w)), set_uuid_counter S w).

Definition send (j : Job) : M unit := modify (set_broker (λ l, l ++ [j])).

(** [sig.apply_async()]; [task.delay(args)] is [task.s(args).apply_async()]. *)
Definition apply_async (sg : Signature) (after : list string) : M Result :=
  i ← uuid;
  send {| job_id := i; job_sig := sg; job_after := after |};;
  mret (AsyncResult i None).

Fixpoint chain_links (prev : Result) (rest : list Signature) : M Result :=
  match rest with
  | [] => mret prev
  | sg :: rest' =>
      i ← uuid;
      send {| job_id := i; job_sig := sg; job_after := [result_id prev] |};;
      chain_links (AsyncResult i (Some prev)) rest'
  end.

(** [(first | rest...).apply_async()]: the handle of the last link, each
    link's parent being the link before it. *)
Definition chain (first : Signature) (rest : list Signature) : M Result :=
  r ← apply_async first [];
  chain_links r rest.

Fixpoint apply_group (header : list Signature) : M (list Result) :=
  match header with
  | [] => mret []
  | sg :: rest =>
      r ← apply_async sg [];
      rs ← apply_group rest;
      mret (r :: rs)
  end.

(** [chord(task_group)(body)], [task_group] being the group of [header]. *)
Definition chord (header : list Signature) (body : Signature) : M Result :=
  results ← apply_group header;
  group_id ← uuid;
  body_id ← uuid;
  send {| job_id := body_id; job_sig := body; job_after := result_id <$> results |};;
  mret (AsyncResult body_id (Some (GroupResult group_id None results))).

(** [r.save()], which only a group result has. *)
Definition save (r : option Result) : M unit :=
  match r with
  | Some (GroupResult i _ results) =>
      modify (set_saved_groups <[i := result_id <$> results]>)
  | Some (AsyncResult _ _) => raise (AttributeError "AsyncResult" "save")
  | None => raise (AttributeError "NoneType" "save")
  end.
End celery.

(** ** Requests and responses *)

Record Request := { query : list (string * string) }.

(** [request.args.get(key)]: the first value given for [key], if any. *)
Fixpoint lookup_first (key : string) (l : list (string * string)) : option string :=
  match l with
  | [] => None
  | (k, v) :: rest => if decide (k = key) then Some v else lookup_first key rest
  end.

Definition args_get (request : Request) (key : string) : option string :=
  lookup_first key (query request).

(** [request.args.get(key, type=conv)]: a value the conversion rejects
    counts as absent. *)
Definition args_get_typed {A} (request : Request) (key : string)
    (conv : string → option A) : option A :=
  match args_get request key with
  | Some v => conv v
  | None => None
  end.

(** Truth value of an optional string ([None] and [''] are false) and of an
    optional integer ([None] and [0] are false). *)
Definition truthy (o : option string) : bool :=
  match o with Some v => negb (bool_decide (v = EmptyString)) | None => false end.

Definition truthy_int (o : option Z) : bool :=
  match o with Some n => negb (n =? 0)%Z | None => false end.

Inductive json :=
  | JNull
  | JString (v : string)
  | JArray (items : list json)
  | JObject (fields : list (string * json)).

Inductive Body := Text (t : string) | Json (j : json).

Record Response := { body : Body; status : nat }.

Definition task_id_json (task_id type : string) : json :=
  JObject [("task_id", JString task_id); ("type", JString type)].

(** ** backend/app.py: the handlers *)

Section app.
Context (search_io_tools : IoTools) (db : Store).
(** [backend.utility.celery_utils.generate_status_tree]. *)
Context (generate_status_tree : Result → M json).
(** [discovery.crud.delete_all_nodes]. *)
Context (delete_all_nodes : M unit).
(** The builtin [int] on a string ([None]: it raises [ValueError]), and
    [get_ddf(bucket, path).head(rows).to_csv()]. *)
Context (int : string → option Z).
Context (ddf_head_to_csv : string → string → Z → M string).

(** Lines 50-55 of [IngestData.get]. *)
Fixpoint ingest_header (bucket : string) (paths : list string)
    (header : list Signature) : M (list Signature) :=
  match paths with
  | [] => mret header
  | table_path :: rest =>
      processed ← db_table_exists db table_path;
      if negb processed
      then ingest_header bucket rest (header ++ [Task.s "add_table" [bucket; table_path]])
      else
        logging.info ("Table " +:+ table_path +:+ " was already processed!");;
        ingest_header bucket rest header
  end.

(** Lines 38-63. *)
Definition IngestData_get (request : Request) : M Response :=
  let bucket := args_get request "bucket" in
  if negb (truthy bucket) then
    mret {| body := Text "Missing bucket query parameter"; status := 400 |}
  else
    let bucket := default EmptyString bucket in
    found ← io_bucket_exists search_io_tools bucket;
    if negb found then
      mret {| body := Text "Bucket does not exist"; status := 404 |}
    else
      paths ← io_get_tables search_io_tools bucket;
      if bool_decide (length paths = 0) then
        mret {| body := Text "Bucket is empty"; status := 204 |}
      else
        header ← ingest_header bucket paths [];
        profiling_chord ← celery.chord header (Task.si "profile_valentine_all" [bucket]);
        celery.save (result_parent profiling_chord);;
        db_save_celery_task db (result_id profiling_chord) (as_tuple profiling_chord);;
        mret {| body := Json (task_id_json (result_id profiling_chord) "Ingestion");
                status := 202 |}.

(** Lines 90-103.  [result_from_tuple] always builds a handle, so the test
    on line 100 reads a value that is never [None]. *)
Definition TaskStatus_get (request : Request) : M Response :=
  let task_id := args_get request "task_id" in
  if negb (truthy task_id) then
    mret {| body := Text "Missing task id query parameter"; status := 400 |}
  else
    let task_id := default EmptyString task_id in
    result_tuple ← db_get_celery_task db task_id;
    match result_tuple with
    | None => mret {| body := Text "Task does not exist"; status := 404 |}
    | Some result_tuple =>
        match Some (result_from_tuple result_tuple) with
        | None =>
            mret {| body := Text "Task could not be loaded from backend"; status := 500 |}
        | Some result =>
            tree ← generate_status_tree result;
            mret {| body := Json tree; status := 200 |}
        end
    end.

(** Lines 110-113. *)
Definition Purge_get (request : Request) : M Response :=
  db_purge db;;
  delete_all_nodes;;
  mret {| body := Text "Success"; status := 200 |}.

(** Lines 174-194. *)
Definition ProfileValentine_get (request : Request) : M Response :=
  let bucket := args_get request "bucket" in
  let table_path := args_get request "table_path" in
  if negb (truthy bucket) || negb (truthy table_path) then
    mret {| body := Text "Missing table path or bucket query parameters"; status := 400 |}
  else
    let bucket := default EmptyString bucket in
    let table_path := default EmptyString table_path in
    found ← io_bucket_exists search_io_tools bucket;
    if negb found then
      mret {| body := Text "Bucket does not exist"; status := 404 |}
    else
      found ← io_table_exists search_io_tools bucket table_path;
      if negb found then
        mret {| body := Text "Table does not exist"; status := 404 |}
      else
        ingested ← db_table_exists db table_path;
        if negb ingested then
          mret {| body := Text "Table has not been ingested yet"; status := 403 |}
        else
          task ← celery.apply_async (Task.s "profile_valentine_star" [bucket; table_path]) [];
          db_save_celery_task db (result_id task) (as_tuple task);;
          mret {| body := Json (task_id_json (result_id task) "Valentine Profiling");
                  status := 202 |}.

(** Lines 208-228. *)
Definition AddTable_get (request : Request) : M Response :=
  let bucket := args_get request "bucket" in
  let table_path := args_get request "table_path" in
  if negb (truthy bucket) || negb (truthy table_path) then
    mret {| body := Text "Missing table path or bucket query parameters"; status := 400 |}
  else
    let bucket := default EmptyString bucket in
    let table_path := default EmptyString table_path in
    found ← io_bucket_exists search_io_tools bucket;
    if negb found then
      mret {| body := Text "Bucket does not exist"; status := 404 |}
    else
      found ← io_table_exists search_io_tools bucket table_path;
      if negb found then
        mret {| body := Text "Table does not exist"; status := 404 |}
      else
        known ← db_get_table db table_path;
        if bool_decide (is_Some known) then
          mret {| body := Text "Table was already processed"; status := 204 |}
        else
          task ← celery.chain (Task.si "add_table" [bucket; table_path])
                              [Task.si "profile_valentine_star" [bucket; table_path]];
          db_save_celery_task db (result_id task) (as_tuple task);;
          mret {| body := Json (task_id_json (result_id task) "Single Ingestion");
                  status := 202 |}.

(** Lines 242-255. *)
Definition GetTableCSV_get (request : Request) : M Response :=
  let bucket := args_get request "bucket" in
  let table_path := args_get request "table_path" in
  let rows := args_get_typed request "rows" int in
  if negb (truthy bucket) || negb (truthy table_path) || negb (truthy_int rows) then
    mret {| body := Text "Missing table path, rows or bucket query parameters";
            status := 400 |}
  else
    let bucket := default EmptyString bucket in
    let table_path := default EmptyString table_path in
    let rows := default 0%Z rows in
    found ← io_bucket_exists search_io_tools bucket;
    if negb found then
      mret {| body := Text "Bucket does not exist"; status := 404 |}
    else
      found ← io_table_exists search_io_tools bucket table_path;
      if negb found then
        mret {| body := Text "Table does not exist"; status := 404 |}
      else
        csv ← ddf_head_to_csv bucket table_path rows;
        mret {| body := Text csv; status := 200 |}.
End app.

(** ** Loading app.py

    Line 19 of [app.py], [from backend.search import redis_tools as db], is
    a top-level statement: it runs when the application is loaded, before
    any of the resource classes below it is defined.  When the store file
    does not import, loading [app.py] ends with that error and there is no
    handler to run. *)

Module app.
(** Lines 1-19: what [db] is bound to when the store file is [m]. *)
Definition load (m : PyModule) : outcome Store :=
  match import_module m with
  | Raise e => Raise e
  | Return _ => Return (redis_tools.module_of m)
  end.

(** A request to the application whose store file is [m]: the handler runs
    on the [db] the load has bound; when the load failed no handler exists
    and the request ends with the error of the load. *)
Definition serve (m : PyModule) (handler : Store → Request → M Response)
    (request : Request) : M Response :=
  match load m with
  | Raise e => raise e
  | Return db => handler db request
  end.
End app.

(** ** What the handlers expect of their collaborators *)

(** Modelled from the spec: what the store interface promises, point reads
    of unit metadata by path, whole-record writes and reads of topologies by
    root identifier, and a global purge. *)
Record StoreSpec (db : Store) : Prop := {
  table_exists_spec : ∀ p w,
    db_table_exists db p w = (Return (bool_decide (is_Some (table_metadata w !! p))), w);
  get_table_spec : ∀ p w,
    db_get_table db p w = (Return (table_metadata w !! p), w);
  get_celery_task_spec : ∀ i w,
    db_get_celery_task db i w = (Return (celery_tasks w !! i), w);
  save_celery_task_spec : ∀ i t w,
    db_save_celery_task db i t w = (Return tt, set_celery_tasks <[i := t]> w);
  purge_spec : ∀ w,
    db_purge db w = (Return tt, set_celery_tasks (λ _, ∅) (set_table_metadata (λ _, ∅) w))
}.

(** The object-store adapter, as [bucket_exists] and [get_tables] are
    written and as [table_exists] is meant. *)
Record IoSpec (io : IoTools) : Prop := {
  bucket_exists_spec : ∀ b w,
    io_bucket_exists io b w = (Return (bool_decide (is_Some (minio_objects w !! b))), w);
  io_table_exists_spec : ∀ b p objs w,
    minio_objects w !! b = Some objs →
    io_table_exists io b p w = (Return (bool_decide (p ∈ objs)), w);
  get_tables_spec : ∀ b objs w,
    minio_objects w !! b = Some objs →
    io_get_tables io b w = (Return objs, w)
}.

(** Modelled from the spec: the unit-metadata store and the topology store
    ([isProcessed], [getMetadata], [persist], [load], [purgeAll]), for which
    [redis_tools.py] no longer has definitions.  Both collections are the
    world's finite maps; a write replaces the whole record. *)
Definition memory_store : Store :=
  {| db_table_exists p := gets (λ w, bool_decide (is_Some (table_metadata w !! p)));
     db_get_table p := gets (λ w, table_metadata w !! p);
     db_get_celery_task i := gets (λ w, celery_tasks w !! i);
     db_save_celery_task i t := modify (set_celery_tasks <[i := t]>);
     db_purge := modify (λ w, set_celery_tasks (λ _, ∅) (set_table_metadata (λ _, ∅) w)) |}.

(** ** The topology a persisted tuple describes *)

(** Modelled from the spec: the persisted topology is a rooted tree of job
    nodes [{id, children}].  [backend.utility.celery_utils], which turns a
    Celery handle into that tree, is not among the sources; here the jobs a
    node waits for are its children: the members of the group that is its
    parent (a chord's header under its body), or its single parent (the
    previous link of a chain), after the members of the node itself. *)
Inductive Node := MkNode (node_id : string) (node_children : list Node).

Fixpoint topology (t : rtuple) : Node :=
  match t with
  | RTuple i parent children =>
      MkNode i
        (match children with
         | Some l => List.map topology l
         | None => []
         end ++
         match parent with
         | None => []
         | Some p =>
             match p with
             | RTuple _ _ (Some l) => List.map topology l
             | RTuple _ _ None => [topology p]
             end
         end)
  end.

Fixpoint node_ids (n : Node) : list string :=
  match n with
  | MkNode i cs => i :: concat (List.map node_ids cs)
  end.

Definition state_name (st : State) : string :=
  match st with
  | PENDING => "PENDING" | STARTED => "STARTED"
  | SUCCESS => "SUCCESS" | FAILURE => "FAILURE"
  end.

(** The live state of one job; a job the backend has not heard of is
    pending. *)
Definition query_state (i : string) : M State := λ w,
  if bool_decide (i ∈ unreachable w) then (Raise (BackendUnavailable i), w)
  else (Return (default PENDING (task_states w !! i)), w).

Definition find_job (i : string) (w : World) : option Job :=
  List.find (λ j, bool_decide (job_id j = i)) (broker w).

(** Modelled from the spec: status reconstruction ([generate_status_tree] of
    [backend.utility.celery_utils], not among the sources) walks the tree
    depth first, asks the backend for the live state of every node, and
    builds a node carrying name, argument snapshot, state, identifier, the
    reconstructed children in order and a reference to the parent; a state
    query that fails fails the whole reconstruction. *)
Fixpoint status_tree (parent : option string) (n : Node) : M json :=
  match n with
  | MkNode i cs =>
      st ← query_state i;
      job ← gets (find_job i);
      children ←
        (fix go (l : list Node) : M (list json) :=
           match l with
           | [] => mret []
           | c :: l' => x ← status_tree (Some i) c; xs ← go l'; mret (x :: xs)
           end) cs;
      mret (JObject
              [ ("name", from_option (λ j, JString (task (job_sig j))) JNull job);
                ("args", from_option (λ j, JArray (JString <$> args (job_sig j))) JNull job);
                ("status", JString (state_name st));
                ("id", JString i);
                ("children", JArray children);
                ("parent", from_option JString JNull parent) ])
  end.

(** The loop over the children of node [i], on its own. *)
Fixpoint status_children (i : string) (l : list Node) : M (list json) :=
  match l with
  | [] => mret []
  | c :: l' => x ← status_tree (Some i) c; xs ← status_children i l'; mret (x :: xs)
  end.

Definition generate_status_tree (result : Result) : M json :=
  status_tree None (topology (as_tuple result)).

(** ** What a persisted tree says about the jobs *)




(** An adapter that only reads: whether a call returns or raises, the world
    after it is the world before. *)
Definition reads_only (io : IoTools) : Prop :=
  (∀ b w, (io_bucket_exists io b w).2 = w)
  ∧ (∀ b p w, (io_table_exists io b p w).2 = w)
  ∧ (∀ b w, (io_get_tables io b w).2 = w).

(** ** Plain decimal text, one reading of the builtin [int] *)

Definition digit (c : Ascii.ascii) : option Z :=
  let n := Z.of_nat (Ascii.nat_of_ascii c) in
  if bool_decide (48 ≤ n ≤ 57)%Z then Some (n - 48)%Z else None.

Fixpoint digits (acc : Z) (v : string) : option Z :=
  match v with
  | EmptyString => Some acc
  | String c rest =>
      match digit c with
      | Some d => digits (10 * acc + d) rest
      | None => None
      end
  end.

Definition decimal_int (v : string) : option Z :=
  match v with
  | EmptyString => None
  | String c rest =>
      let sign := Ascii.nat_of_ascii c in
      if bool_decide (sign = 45) then
        if bool_decide (rest = EmptyString) then None else Z.opp <$> digits 0 rest
      else if bool_decide (sign = 43) then
        if bool_decide (rest = EmptyString) then None else digits 0 rest
      else digits 0 v
  end.

(** ** Closed forms used to state what a submission leaves behind *)

Definition fresh (n : nat) : string := "task-" +:+ pretty n.

Fixpoint group_results (n : nat) (header : list Signature) : list Result :=
  match header with
  | [] => []
  | _ :: rest => AsyncResult (fresh n) None :: group_results (S n) rest
  end.

Fixpoint group_jobs (n : nat) (header : list Signature) : list Job :=
  match header with
  | [] => []
  | sg :: rest =>
      {| job_id := fresh n; job_sig := sg; job_after := [] |} :: group_jobs (S n) rest
  end.

(** The leaves the bulk handler builds for a listing: one [add_table]
    signature per path without metadata, in listing order. *)
Definition unprocessed (w : World) (paths : list string) : list string :=
  filter (λ p, table_metadata w !! p = None) paths.

Definition leaf_signatures (bucket : string) (paths : list string) : list Signature :=
  (λ p, Task.s "add_table" [bucket; p]) <$> paths.

Definition already_processed_messages (w : World) (paths : list string) : list string :=
  (λ p, "Table " +:+ p +:+ " was already processed!")
    <$> filter (λ p, is_Some (table_metadata w !! p)) paths.

Definition accepted (task_id type : string) : Response :=
  {| body := Json (task_id_json task_id type); status := 202 |}.

Definition not_found : Response :=
  {| body := Text "Task does not exist"; status := 404 |}.

Definition missing_csv_parameters : Response :=
  {| body := Text "Missing table path, rows or bucket query parameters"; status := 400 |}.

(** The three results a handler guarded by the written existence check can
    have. *)
Definition stops_at_table_check (missing : string) (r : outcome Response) : Prop :=
  r = Return {| body := Text missing; status := 400 |}
  ∨ r = Return {| body := Text "Bucket does not exist"; status := 404 |}
  ∨ r = Raise (NameError "path").

Definition returns_only (guards : list Response) (r : outcome Response) : Prop :=
  ∀ resp, r = Return resp → resp ∈ guards.

Definition store_import_error : exn := SyntaxError "backend.search.redis_tools" 6.

Definition store_attribute_error (attr : string) : exn :=
  AttributeError "backend.search.redis_tools" attr.

(** A small world for examples: one bucket with two tables, nothing
    ingested, nothing submitted. *)
Definition world0 : World :=
  {| minio_objects := {[ "data" := ["a.csv"; "b.csv"] ]};
     table_metadata := ∅; celery_tasks := ∅; broker := [];
     saved_groups := ∅; uuid_counter := 0; task_states := ∅;
     unreachable := ∅; logged := [] |}.

Definition table_a : Table :=
  {| table_name := "a"; table_path := "a.csv"; table_bucket := "data";
     column_count := 3; nodes := ∅ |}.

Definition table_b : Table :=
  {| table_name := "b"; table_path := "b.csv"; table_bucket := "data";
     column_count := 2; nodes := ∅ |}.

(** [world0] after the first table was ingested, and after both were. *)
Definition world_a : World := set_table_metadata <["a.csv" := table_a]> world0.
Definition world_ab : World := set_table_metadata <["b.csv" := table_b]> world_a.

(** What a "nothing to do" answer of the bulk handler would be: a response
    that is not a job identifier, with nothing handed to the backend. *)
Definition signals_nothing_to_do (db : Store) (request : Request) (w : World) : Prop :=
  ∃ resp w',
    IngestData_get io_tools.module db request w = (Return resp, w')
    ∧ broker w' = broker w
    ∧ ∀ task_id type, resp ≠ accepted task_id type.

(** [world0] after a bulk submission, and the same with the backend
    unreachable for the second ingest job. *)
Definition world_submitted : World :=
  (IngestData_get io_tools.module memory_store {| query := [("bucket", "data")] |} world0).2.

Definition world_partition : World :=
  set_unreachable (λ _, {["task-1"]}) world_submitted.

Definition is_unreachable (w : World) (i : string) : bool :=
  bool_decide (i ∈ unreachable w).

(** A bucket that exists and lists nothing. *)
Definition world_empty_bucket : World :=
  {| minio_objects := {[ "data" := [] ]};
     table_metadata := ∅; celery_tasks := ∅; broker := [];
     saved_groups := ∅; uuid_counter := 0; task_states := ∅;
     unreachable := ∅; logged := [] |}.

Definition store_functions : list string :=
  ["table_exists"; "get_table"; "get_celery_task"; "save_celery_task"; "purge"].

(** The responses each handler can give before its first store call. *)
Definition IngestData_guards : list Response :=
  [ {| body := Text "Missing bucket query parameter"; status := 400 |};
    {| body := Text "Bucket does not exist"; status := 404 |};
    {| body := Text "Bucket is empty"; status := 204 |} ].

Definition TaskStatus_guards : list Response :=
  [ {| body := Text "Missing task id query parameter"; status := 400 |} ].

Definition table_guards : list Response :=
  [ {| body := Text "Missing table path or bucket query parameters"; status := 400 |};
    {| body := Text "Bucket does not exist"; status := 404 |};
    {| body := Text "Table does not exist"; status := 404 |} ].


(** * The rest of the adapter and of the clients

    [backend/clients/dask.py] and the data-frame functions of
    [backend/search/io_tools.py] act on the process they run in: its
    environment variables, the module-level Dask client, the objects behind
    the MinIO client and the connections opened to read them. *)

Inductive failure :=
  | Exn (e : exn)
  | KeyError (key : string)
  | UnicodeDecodeError.

Inductive answer (A : Type) :=
  | Ok (a : A)
  | Err (f : failure).
Arguments Ok {A} a.
Arguments Err {A} f.

(** [Client(threads_per_worker=.., n_workers=..)]: every construction starts
    a cluster of its own, told apart here by a serial number. *)
Inductive DaskClient := Client (serial threads_per_worker n_workers : nat).

(** What an object holds: text that decodes as UTF-8, or bytes that do not. *)
Inductive Content := Utf8 (text : string) | NotUtf8.

(** A connection of the MinIO client: taken from the pool and held by a
    response, closed while the response still holds it, and given back to the
    pool. *)
Inductive ConnState := ConnOpen | ConnClosed | ConnReleased.

(** What reading a body to its end, [close()] and [release_conn()] do to
    the connection of a response.  Once the body has been read the
    connection goes back to the pool; [close()] closes a connection only
    while the response still holds it. *)
Definition after_read (st : ConnState) : ConnState :=
  match st with ConnOpen => ConnReleased | _ => st end.

Definition after_close (st : ConnState) : ConnState :=
  match st with ConnOpen => ConnClosed | _ => st end.

Definition after_release (st : ConnState) : ConnState :=
  match st with ConnOpen | ConnClosed | ConnReleased => ConnReleased end.

Record Process := {
  environ : gmap string string;               (* os.environ *)
  dask_client : option DaskClient;            (* the global of clients/dask.py *)
  clusters : list DaskClient;                 (* every client constructed, oldest first *)
  contents : gmap string (gmap string Content); (* objects by bucket, then by name *)
  connections : list ConnState                (* connection k is the k-th one opened *)
}.

Definition set_dask_client (c : DaskClient) (s : Process) : Process :=
  {| environ := environ s; dask_client := Some c; clusters := clusters s ++ [c];
     contents := contents s; connections := connections s |}.

Definition set_connections (f : list ConnState → list ConnState) (s : Process) : Process :=
  {| environ := environ s; dask_client := dask_client s; clusters := clusters s;
     contents := contents s; connections := f (connections s) |}.

Definition P (A : Type) : Type := Process → answer A * Process.

Global Instance P_ret : MRet P := λ A a s, (Ok a, s).
Global Instance P_bind : MBind P := λ A B f m s,
  match m s with
  | (Ok a, s') => f a s'
  | (Err e, s') => (Err e, s')
  end.

Definition throw {A} (f : failure) : P A := λ s, (Err f, s).
Definition lift_answer {A} (a : answer A) : P A := λ s, (a, s).

(** ** backend/clients/dask.py *)

(** The dictionary of lines 18-22; [endpoint_url] is the one entry of its
    [client_kwargs]. *)
Record S3Settings := { key : string; secret : string; endpoint_url : string }.

Module dask.
(** [os.environ[name]]. *)
Definition environ_get (name : string) : P string := λ s,
  match environ s !! name with
  | Some v => (Ok v, s)
  | None => (Err (KeyError name), s)
  end.

(** Lines 10-14. *)
Definition get_client : P DaskClient := λ s,
  match dask_client s with
  | None =>
      let c := Client (length (clusters s)) 4 8 in
      (Ok c, set_dask_client c s)
  | Some c => (Ok c, s)
  end.

(** Lines 17-22; the entries of the dictionary are evaluated in the order
    they are written. *)
Definition get_s3_settings : P S3Settings :=
  k ← environ_get "MINIO_ACCESS_KEY";
  sec ← environ_get "MINIO_SECRET_KEY";
  host ← environ_get "MINIO_HOST";
  port ← environ_get "MINIO_PORT";
  mret {| key := k; secret := sec;
          endpoint_url := "http://" +:+ host +:+ ":" +:+ port |}.
End dask.

(** The variables [get_s3_settings] reads, in reading order. *)
Definition s3_variables : list string :=
  ["MINIO_ACCESS_KEY"; "MINIO_SECRET_KEY"; "MINIO_HOST"; "MINIO_PORT"].

(** ** backend/search/io_tools.py: the data-frame functions *)

(** A column of a data frame: its name, whether its dtype is numeric, and
    its cells. *)
Record Column := { col_name : string; numeric : bool; cells : list string }.

Record CsvOptions := {
  sample_rows : option nat;
  blocksize : option Z;
  header : nat;
  engine : string;
  encoding : string;
  quotechar : Ascii.ascii;
  escapechar : Ascii.ascii;
  nrows : option Z
}.

Definition double_quote : Ascii.ascii := Ascii.ascii_of_nat 34.
Definition backslash : Ascii.ascii := Ascii.ascii_of_nat 92.

(** The response of [minio_client.get_object]: the connection it holds and
    the body waiting on it, not read yet. *)
Record ObjectResponse := { conn : nat; payload : Content }.

Module minio_object.
Definition get_object (bucket path : string) : P ObjectResponse := λ s,
  match contents s !! bucket with
  | None => (Err (Exn NoSuchBucket), s)
  | Some objs =>
      match objs !! path with
      | None => (Err (Exn NoSuchKey), s)
      | Some c =>
          (Ok {| conn := length (connections s); payload := c |},
           set_connections (λ l, l ++ [ConnOpen]) s)
      end
  end.

(** [res.data]: the body, read to its end. *)
Definition data (res : ObjectResponse) : P Content := λ s,
  (Ok (payload res), set_connections (alter after_read (conn res)) s).

(** [bytes.decode("utf-8")]. *)
Definition decode (c : Content) : P string :=
  match c with
  | Utf8 t => mret t
  | NotUtf8 => throw UnicodeDecodeError
  end.

Definition close (res : ObjectResponse) : P unit := λ s,
  (Ok tt, set_connections (alter after_close (conn res)) s).

Definition release_conn (res : ObjectResponse) : P unit := λ s,
  (Ok tt, set_connections (alter after_release (conn res)) s).
End minio_object.

(** [ddf[col]]: the column of that name, or a frame when several columns
    carry it. *)
Inductive Selection := Series (c : Column) | Frame (cs : list Column).

Definition getitem (ddf : list Column) (col : string) : Selection :=
  match filter (λ c, col_name c = col) ddf with
  | [c] => Series c
  | cs => Frame cs
  end.

(** [s.unique()]: the distinct cells, in order of first appearance. *)
Fixpoint unique (l : list string) : list string :=
  match l with
  | [] => []
  | x :: rest => x :: filter (λ y, y ≠ x) (unique rest)
  end.

(** [get_unique], the lambda of line 73; a frame has no [unique]. *)
Definition get_unique (sel : Selection) : answer (list string) :=
  match sel with
  | Series c => Ok (unique (cells c))
  | Frame _ => Err (Exn (AttributeError "DataFrame" "unique"))
  end.

(** [client.gather(futures)]: the results in order, or the first failure. *)
Fixpoint gather {A} (futures : list (answer A)) : answer (list A) :=
  match futures with
  | [] => Ok []
  | Ok a :: rest =>
      match gather rest with
      | Ok l => Ok (a :: l)
      | Err f => Err f
      end
  | Err f :: _ => Err f
  end.

(** [dict(zip(keys, values))]: a later pair replaces an earlier one. *)
Definition dict_zip {A} (keys : list string) (values : list A) : gmap string A :=
  foldl (λ m kv, <[kv.1 := kv.2]> m) ∅ (zip keys values).

Definition select_dtypes_exclude_number (ddf : list Column) : list Column :=
  filter (λ c, numeric c = false) ddf.

Definition columns (ddf : list Column) : list string := col_name <$> ddf.

Module io_tools_frames.
Section readers.
(** [pd.read_csv] on text and [dd.read_csv] on a URL. *)
Context (pd_read_csv : string → CsvOptions → answer (list Column)).
Context (dd_read_csv : string → CsvOptions → S3Settings → P (list Column)).

(** Lines 30-46. *)
Definition get_df (bucket path : string) (rows : option Z) : P (list Column) :=
  res ← minio_object.get_object bucket path;
  raw ← minio_object.data res;
  csv_string ← minio_object.decode raw;
  minio_object.close res;;
  minio_object.release_conn res;;
  lift_answer
    (pd_read_csv csv_string
       {| sample_rows := None; blocksize := None; header := 0; engine := "python";
          encoding := "utf8"; quotechar := double_quote; escapechar := backslash;
          nrows := rows |}).

Definition minio_path (bucket path : string) : string :=
  "s3://" +:+ bucket +:+ "/" +:+ path.

(** Lines 49-65; [storage_options=dask.get_s3_settings()] is evaluated
    before [dd.read_csv] is entered. *)
Definition get_ddf (bucket path : string) : P (list Column) :=
  let minio_path := minio_path bucket path in
  storage_options ← dask.get_s3_settings;
  dd_read_csv minio_path
    {| sample_rows := Some 1000; blocksize := Some 25000000%Z; header := 0;
       engine := "python"; encoding := "utf8"; quotechar := double_quote;
       escapechar := backslash; nrows := None |}
    storage_options.
End readers.

(** Lines 68-78. *)
Definition get_unique_values (ddf : list Column) : P (gmap string (list string)) :=
  let ddf := select_dtypes_exclude_number ddf in
  _ ← dask.get_client;
  let futures := (λ col, get_unique (getitem ddf col)) <$> columns ddf in
  _ ← dask.get_client;
  results ← lift_answer (gather futures);
  mret (dict_zip (columns ddf) results).
End io_tools_frames.

(** [n] calls of [get_client] in a row: what each returned, and the process
    after the last. *)
Fixpoint get_client_times (n : nat) (s : Process) : list (answer DaskClient) * Process :=
  match n with
  | 0 => ([], s)
  | S n' =>
      let (r, s1) := dask.get_client s in
      let (rs, s2) := get_client_times n' s1 in
      (r :: rs, s2)
  end.

Definition first_missing (s : Process) : option string :=
  List.find (λ v, bool_decide (environ s !! v = None)) s3_variables.

Definition ddf_options : CsvOptions :=
  {| sample_rows := Some 1000; blocksize := Some 25000000%Z; header := 0;
     engine := "python"; encoding := "utf8"; quotechar := double_quote;
     escapechar := backslash; nrows := None |}.

Definition df_options (rows : option Z) : CsvOptions :=
  {| sample_rows := None; blocksize := None; header := 0; engine := "python";
     encoding := "utf8"; quotechar := double_quote; escapechar := backslash;
     nrows := rows |}.

(** Whether a name has a slash in it. *)
Fixpoint has_slash (v : string) : bool :=
  match v with
  | EmptyString => false
  | String c rest => bool_decide (Ascii.nat_of_ascii c = 47) || has_slash rest
  end.

(** A process for examples: the four variables set, one object that is
    text and one that is not. *)
Definition process0 : Process :=
  {| environ := {[ "MINIO_ACCESS_KEY" := "minio"; "MINIO_SECRET_KEY" := "minio123";
                   "MINIO_HOST" := "localhost"; "MINIO_PORT" := "9000" ]};
     dask_client := None; clusters := [];
     contents := {[ "data" := {[ "a.csv" := Utf8 "id,name"; "b.bin" := NotUtf8 ]} ]};
     connections := [] |}.

(** ** backend/app.py: the graph endpoints *)

Section graph_endpoints.
(** [discovery.queries.get_node_by_prop(source_name=..)],
    [get_related_between_two_tables] and [discovery.queries.get_joinable]. *)
Context (get_node_by_prop : string → M (list string)).
Context (get_related_between_two_tables : string → string → M json).
Context (get_joinable : string → M json).

(** Lines 278-298. *)
Definition GetRelatedNodes_get (request : Request) : M Response :=
  let from_table := args_get request "source_table_path" in
  let to_table := args_get request "target_table_path" in
  if negb (truthy from_table) || negb (truthy to_table) then
    mret {| body := Text ("Please provide both a source table path and a target "
                          +:+ "table path as query parameters");
            status := 400 |}
  else
    let from_table := default EmptyString from_table in
    let to_table := default EmptyString to_table in
    if bool_decide (from_table = to_table) then
      mret {| body := Text "Source and target table paths should be different";
              status := 403 |}
    else
      node ← get_node_by_prop from_table;
      if bool_decide (length node = 0) then
        mret {| body := Text "Table does not exist"; status := 404 |}
      else
        node ← get_node_by_prop to_table;
        if bool_decide (length node = 0) then
          mret {| body := Text "Table does not exist"; status := 404 |}
        else
          paths ← get_related_between_two_tables from_table to_table;
          mret {| body := Json (JObject [("RelatedTables", paths)]); status := 200 |}.

(** Lines 324-335; the test on line 327 is [table_path is None]. *)
Definition GetJoinable_get (request : Request) : M Response :=
  match args_get request "table_path" with
  | None =>
      mret {| body := Text "Please provide a table path as query parameter";
              status := 400 |}
  | Some table_path =>
      node ← get_node_by_prop table_path;
      if bool_decide (length node = 0) then
        mret {| body := Text "Table does not exist"; status := 404 |}
      else
        joinable ← get_joinable table_path;
        mret {| body := Json (JObject [("JoinableTables", joinable)]); status := 200 |}
  end.
End graph_endpoints.

(** A graph in which every table has a node, and one that has none. *)
Definition every_table_has_a_node (t : string) : M (list string) := mret [t].
Definition no_table_has_a_node (t : string) : M (list string) := mret [].
Definition no_relations (a b : string) : M json := mret (JArray []).
Definition nothing_joinable (t : string) : M json := mret (JArray []).

(** A [delete_all_nodes] that fails without having done anything. *)
Definition graph_unreachable : M unit := raise (BackendUnavailable "graph").

(** * Properties *)

(** ** Running the monad *)


Lemma run_bind {A B} (m : M A) (f : A → M B) (w : World) :
  (m ≫= f) w =
  match m w with
  | (Return a, w') => f a w'
  | (Raise e, w') => (Raise e, w')
  end.
Proof. reflexivity. Qed.

Lemma run_bind_return {A B} (m : M A) (f : A → M B) w a w' :
  m w = (Return a, w') → (m ≫= f) w = f a w'.
Proof. intros H. rewrite run_bind, H. reflexivity. Qed.

Lemma run_bind_raise {A B} (m : M A) (f : A → M B) w e w' :
  m w = (Raise e, w') → (m ≫= f) w = (Raise e, w').
Proof. intros H. rewrite run_bind, H. reflexivity. Qed.

Lemma run_ret {A} (a : A) w : mret (M := M) a w = (Return a, w).
Proof. reflexivity. Qed.

Lemma truthy_Some v : v ≠ EmptyString → truthy (Some v) = true.
Proof. intros H. unfold truthy. by rewrite bool_decide_eq_false_2. Qed.

(** ** The object-store adapter as written *)

Lemma table_exists_as_written bucket table_path w :
  io_tools.table_exists bucket table_path w = (Raise (NameError "path"), w).
Proof. reflexivity. Qed.

Lemma module_table_exists_as_written bucket table_path w :
  io_table_exists io_tools.module bucket table_path w = (Raise (NameError "path"), w).
Proof. reflexivity. Qed.

Lemma module_bucket_exists_as_written bucket w :
  io_bucket_exists io_tools.module bucket w =
  (Return (bool_decide (is_Some (minio_objects w !! bucket))), w).
Proof. reflexivity. Qed.

(** Up to the existence check the three table endpoints run the same
    steps; [rest] is whatever follows the check. *)
Lemma stops_at_written_check (missing : string) (guard : bool) (bucket table_path : string)
    (rest : M Response) w :
  stops_at_table_check missing
    ((if guard then mret {| body := Text missing; status := 400 |}
      else
        found ← io_bucket_exists io_tools.module bucket;
        if negb found then mret {| body := Text "Bucket does not exist"; status := 404 |}
        else
          found ← io_table_exists io_tools.module bucket table_path;
          if negb found then mret {| body := Text "Table does not exist"; status := 404 |}
          else rest) w).1.
Proof.
  unfold stops_at_table_check. destruct guard; [left; reflexivity|].
  erewrite run_bind_return by apply module_bucket_exists_as_written.
  destruct (bool_decide _); simpl; [|right; left; reflexivity].
  right; right.
  erewrite run_bind_raise by apply module_table_exists_as_written. reflexivity.
Qed.

(** C9.  Inside [io_tools.table_exists] the name [path] is bound nowhere
    (the parameter is [table_path]), so for every bucket and table path the
    check raises [NameError] for [path] and returns neither [True] nor
    [False]; every request to /profile-valentine, /add-table and
    /get-table-csv therefore ends with the missing-parameter response, the
    missing-bucket response or that [NameError], never with "Table does not
    exist" and never with a success response. *)
Theorem io_tools_table_exists_NameError :
  (∀ bucket table_path,
     let locals : gmap string pyval :=
       {[ "bucket" := VStr bucket; "table_path" := VStr table_path ]} in
     load_name locals (module_dict io_tools.source) "path" = Raise (NameError "path")
     ∧ load_name locals (module_dict io_tools.source) "table_path"
       = Return (VStr table_path))
  ∧ (∀ bucket table_path w,
     io_tools.table_exists bucket table_path w = (Raise (NameError "path"), w)
     ∧ io_table_exists io_tools.module bucket table_path w = (Raise (NameError "path"), w))
  ∧ (∀ db request w,
       stops_at_table_check "Missing table path or bucket query parameters"
         (ProfileValentine_get io_tools.module db request w).1)
  ∧ (∀ db request w,
       stops_at_table_check "Missing table path or bucket query parameters"
         (AddTable_get io_tools.module db request w).1)
  ∧ (∀ int ddf_head_to_csv request w,
       stops_at_table_check "Missing table path, rows or bucket query parameters"
         (GetTableCSV_get io_tools.module int ddf_head_to_csv request w).1).
Proof.
  split; [intros; split; reflexivity|].
  split; [intros; split; reflexivity|].
  repeat split; intros; apply stops_at_written_check.
Qed.

(** ** The store module as written *)

Lemma module_call_without_def {A} m attr w :
  module_call (A := A) m attr None w = (Raise (call_error m attr), w).
Proof.
  unfold module_call, call_error.
  destruct (getattr_module m attr) as [[]|e]; reflexivity.
Qed.

Lemma ingest_header_as_written m bucket p rest header w :
  ingest_header (redis_tools.module_of m) bucket (p :: rest) header w
  = (Raise (call_error m "table_exists"), w).
Proof.
  cbn [ingest_header]. erewrite run_bind_raise; [reflexivity|].
  apply module_call_without_def.
Qed.

Lemma IngestData_get_as_written m io request w :
  returns_only IngestData_guards (IngestData_get io (redis_tools.module_of m) request w).1.
Proof.
  intros resp. unfold IngestData_get, IngestData_guards.
  destruct (negb (truthy _)); [intros [= <-]; set_solver|].
  rewrite run_bind. destruct (io_bucket_exists io _ w) as [[[]|e] w1]; simpl;
    [|intros [= <-]; set_solver|discriminate].
  rewrite run_bind. destruct (io_get_tables io _ w1) as [[paths|e] w2]; simpl; [|discriminate].
  case_bool_decide; [intros [= <-]; set_solver|].
  destruct paths as [|p rest]; [done|].
  erewrite run_bind_raise by apply ingest_header_as_written. discriminate.
Qed.

Lemma TaskStatus_get_as_written m gst request w :
  returns_only TaskStatus_guards (TaskStatus_get (redis_tools.module_of m) gst request w).1.
Proof.
  intros resp. unfold TaskStatus_get, TaskStatus_guards.
  destruct (negb (truthy _)); [intros [= <-]; set_solver|].
  erewrite run_bind_raise by apply module_call_without_def. discriminate.
Qed.

Lemma Purge_get_as_written m del request w :
  Purge_get (redis_tools.module_of m) del request w = (Raise (call_error m "purge"), w).
Proof.
  unfold Purge_get. erewrite run_bind_raise; [reflexivity|].
  apply module_call_without_def.
Qed.

Lemma ProfileValentine_get_as_written m io request w :
  returns_only table_guards (ProfileValentine_get io (redis_tools.module_of m) request w).1.
Proof.
  intros resp. unfold ProfileValentine_get, table_guards.
  destruct (negb (truthy _) || negb (truthy _)); [intros [= <-]; set_solver|].
  rewrite run_bind. destruct (io_bucket_exists io _ w) as [[[]|e] w1]; simpl;
    [|intros [= <-]; set_solver|discriminate].
  rewrite run_bind. destruct (io_table_exists io _ _ w1) as [[[]|e] w2]; simpl;
    [|intros [= <-]; set_solver|discriminate].
  erewrite run_bind_raise by apply module_call_without_def. discriminate.
Qed.

Lemma AddTable_get_as_written m io request w :
  returns_only table_guards (AddTable_get io (redis_tools.module_of m) request w).1.
Proof.
  intros resp. unfold AddTable_get, table_guards.
  destruct (negb (truthy _) || negb (truthy _)); [intros [= <-]; set_solver|].
  rewrite run_bind. destruct (io_bucket_exists io _ w) as [[[]|e] w1]; simpl;
    [|intros [= <-]; set_solver|discriminate].
  rewrite run_bind. destruct (io_table_exists io _ _ w1) as [[[]|e] w2]; simpl;
    [|intros [= <-]; set_solver|discriminate].
  erewrite run_bind_raise by apply module_call_without_def. discriminate.
Qed.

(** C8.  With the store module as the repository has it: importing the
    module fails on its incomplete import statement (line 6); the module
    defines [add_table] as its only function and, even with line 6 taken
    out, binds none of [table_exists], [get_table], [get_celery_task],
    [save_celery_task] and [purge], so that looking any of them up raises
    [AttributeError]; each of these five calls raises for every argument;
    and so every endpoint that goes through the store raises as soon as it
    gets there: whatever the request, it can only answer with one of the
    responses it issues before its first store call, and /purge with none.
    The same holds of the endpoints with line 6 taken out of the file. *)
Theorem redis_tools_store_calls_raise :
  import_module redis_tools.source = Raise store_import_error
  ∧ defined_functions redis_tools.source = ["add_table"]
  ∧ Forall (λ attr,
       module_dict redis_tools.source !! attr = None
       ∧ call_error redis_tools.source attr = store_import_error
       ∧ call_error (without_syntax_errors redis_tools.source) attr
         = store_attribute_error attr) store_functions
  ∧ (∀ p i t w,
       db_table_exists redis_tools.module p w = (Raise store_import_error, w)
       ∧ db_get_table redis_tools.module p w = (Raise store_import_error, w)
       ∧ db_get_celery_task redis_tools.module i w = (Raise store_import_error, w)
       ∧ db_save_celery_task redis_tools.module i t w = (Raise store_import_error, w)
       ∧ db_purge redis_tools.module w = (Raise store_import_error, w))
  ∧ Forall (λ db, ∀ io gst del request w,
       returns_only IngestData_guards (IngestData_get io db request w).1
       ∧ returns_only TaskStatus_guards (TaskStatus_get db gst request w).1
       ∧ (∃ e, Purge_get db del request w = (Raise e, w))
       ∧ returns_only table_guards (ProfileValentine_get io db request w).1
       ∧ returns_only table_guards (AddTable_get io db request w).1)
      [redis_tools.module; redis_tools.importable].
Proof.
  split; [reflexivity|].
  split; [reflexivity|].
  split; [repeat constructor; vm_compute; reflexivity|].
  split; [intros; repeat split; reflexivity|].
  assert (Hany : ∀ m io gst del request w,
    returns_only IngestData_guards
      (IngestData_get io (redis_tools.module_of m) request w).1
    ∧ returns_only TaskStatus_guards
        (TaskStatus_get (redis_tools.module_of m) gst request w).1
    ∧ (∃ e, Purge_get (redis_tools.module_of m) del request w = (Raise e, w))
    ∧ returns_only table_guards
        (ProfileValentine_get io (redis_tools.module_of m) request w).1
    ∧ returns_only table_guards
        (AddTable_get io (redis_tools.module_of m) request w).1).
  { intros m io gst del request w.
    split; [apply IngestData_get_as_written|].
    split; [apply TaskStatus_get_as_written|].
    split; [eexists; apply Purge_get_as_written|].
    split; [apply ProfileValentine_get_as_written | apply AddTable_get_as_written]. }
  apply Forall_cons. split; [apply (Hany redis_tools.source)|].
  apply Forall_cons. split; [apply Hany | apply Forall_nil_2].
Qed.

(** ** Collaborators that meet the interfaces *)

Lemma memory_store_spec : StoreSpec memory_store.
Proof. split; reflexivity. Qed.

Lemma io_tools_getattr_def attr :
  attr ∈ defined_functions io_tools.source →
  getattr_module io_tools.source attr = Return BFunction.
Proof.
  intros Hin. repeat (apply elem_of_cons in Hin as [->|Hin]; [reflexivity|]).
  by apply elem_of_nil in Hin.
Qed.

Lemma io_tools_name_local locals x v w :
  locals !! x = Some v → io_tools.name locals x w = (Return v, w).
Proof. intros H. unfold io_tools.name, lift, load_name. rewrite H. reflexivity. Qed.

Lemma io_tools_name_minio locals w :
  locals !! "minio" = None →
  io_tools.name locals "minio" w = (Return (VGlobal "minio" BObject), w).
Proof. intros H. unfold io_tools.name, lift, load_name. rewrite H. reflexivity. Qed.

Lemma repaired_io_spec : IoSpec io_tools.repaired.
Proof.
  split.
  - reflexivity.
  - intros b p objs w Hb.
    cbv [io_tools.repaired io_table_exists module_call].
    rewrite io_tools_getattr_def by (vm_compute; set_solver).
    unfold io_tools.table_exists_reading, try_except.
    erewrite run_bind_return by (apply io_tools_name_minio; reflexivity).
    erewrite run_bind_return by (apply io_tools_name_local; reflexivity).
    erewrite run_bind_return by (apply io_tools_name_local; reflexivity).
    rewrite run_bind. unfold minio_client.stat_object. rewrite Hb.
    case_bool_decide; reflexivity.
  - intros b objs w Hb.
    cbv [io_tools.repaired io_tools.module io_get_tables module_call].
    rewrite io_tools_getattr_def by (vm_compute; set_solver).
    unfold io_tools.get_tables.
    erewrite run_bind_return by (apply io_tools_name_minio; reflexivity).
    erewrite run_bind_return by (apply io_tools_name_local; reflexivity).
    unfold minio_client.list_objects. rewrite Hb. reflexivity.
Qed.

(** ** /get-table-csv *)

(** C10.  A /get-table-csv request whose [rows] parameter converts to the
    integer 0, or does not convert to an integer at all, is answered with
    status 400 and "Missing table path, rows or bucket query parameters",
    the very response of a request without the parameter; no CSV is
    produced. *)
Theorem GetTableCSV_get_rows_zero_or_invalid io int ddf_head_to_csv request v w :
  args_get request "rows" = Some v →
  int v = Some 0%Z ∨ int v = None →
  GetTableCSV_get io int ddf_head_to_csv request w = (Return missing_csv_parameters, w)
  ∧ ∀ absent, args_get absent "rows" = None →
      GetTableCSV_get io int ddf_head_to_csv absent w
      = GetTableCSV_get io int ddf_head_to_csv request w.
Proof.
  intros Hrows Hint.
  assert (Hreq : GetTableCSV_get io int ddf_head_to_csv request w
                 = (Return missing_csv_parameters, w)).
  { unfold GetTableCSV_get, args_get_typed. rewrite Hrows.
    destruct Hint as [-> | ->]; simpl; rewrite orb_true_r; reflexivity. }
  split; [exact Hreq|].
  intros absent Habs. rewrite Hreq.
  unfold GetTableCSV_get, args_get_typed. rewrite Habs. simpl.
  rewrite orb_true_r. reflexivity.
Qed.

Lemma GetTableCSV_get_rows_zero_witness :
  let request := {| query := [("bucket", "data"); ("table_path", "a.csv"); ("rows", "0")] |} in
  GetTableCSV_get io_tools.module decimal_int (λ _ _ _, mret EmptyString) request world0
  = (Return missing_csv_parameters, world0)
  ∧ ∀ absent, args_get absent "rows" = None →
      GetTableCSV_get io_tools.module decimal_int (λ _ _ _, mret EmptyString) absent world0
      = GetTableCSV_get io_tools.module decimal_int (λ _ _ _, mret EmptyString) request world0.
Proof.
  apply (GetTableCSV_get_rows_zero_or_invalid _ _ _ _ "0"); [reflexivity | left; reflexivity].
Defined.


(** ** Celery submissions in closed form *)

Lemma fresh_inj : Inj (=) (=) fresh.
Proof.
  intros n m H. unfold fresh in H.
  apply (inj (String.append "task-")) in H. by apply (inj pretty) in H.
Qed.

Lemma fresh_nonempty n : fresh n ≠ EmptyString.
Proof. discriminate. Qed.

Lemma apply_async_spec sg after w :
  celery.apply_async sg after w =
  (Return (AsyncResult (fresh (uuid_counter w)) None),
   set_broker (λ l, l ++ [{| job_id := fresh (uuid_counter w); job_sig := sg;
                             job_after := after |}])
     (set_uuid_counter S w)).
Proof. reflexivity. Qed.

Lemma apply_group_spec header w :
  celery.apply_group header w =
  (Return (group_results (uuid_counter w) header),
   set_broker (λ l, l ++ group_jobs (uuid_counter w) header)
     (set_uuid_counter (λ c, c + length header) w)).
Proof.
  revert w. induction header as [|sg rest IH]; intros w.
  - destruct w. unfold set_broker, set_uuid_counter. simpl.
    rewrite app_nil_r, Nat.add_0_r. reflexivity.
  - cbn [celery.apply_group].
    erewrite run_bind_return by apply apply_async_spec.
    erewrite run_bind_return by apply IH.
    destruct w. unfold set_broker, set_uuid_counter. simpl.
    rewrite <- app_assoc, Nat.add_succ_r. reflexivity.
Qed.

Lemma group_results_ids n header :
  result_id <$> group_results n header = job_id <$> group_jobs n header.
Proof.
  revert n. induction header as [|sg rest IH]; intros n; simpl; [done|]. by rewrite IH.
Qed.

Lemma group_jobs_sigs n header : job_sig <$> group_jobs n header = header.
Proof.
  revert n. induction header as [|sg rest IH]; intros n; simpl; [done|]. by rewrite IH.
Qed.

Lemma group_results_length n header : length (group_results n header) = length header.
Proof. revert n. induction header; intros; simpl; auto. Qed.

Lemma chord_spec header body w :
  let n := uuid_counter w in
  let k := length header in
  celery.chord header body w =
  (Return (AsyncResult (fresh (n + k + 1))
             (Some (GroupResult (fresh (n + k)) None (group_results n header)))),
   set_broker (λ l, l ++ group_jobs n header
                      ++ [{| job_id := fresh (n + k + 1); job_sig := body;
                             job_after := result_id <$> group_results n header |}])
     (set_uuid_counter (λ c, c + k + 2) w)).
Proof.
  intros n k. unfold celery.chord.
  erewrite run_bind_return by apply apply_group_spec.
  destruct w. unfold celery.uuid, celery.send, modify, set_broker, set_uuid_counter.
  rewrite !run_bind. simpl in *. subst n k. rewrite run_ret.
  rewrite <- !app_assoc.
  replace (S (uuid_counter0 + length header)) with (uuid_counter0 + length header + 1) by lia.
  replace (S (uuid_counter0 + length header + 1)) with (uuid_counter0 + length header + 2) by lia.
  reflexivity.
Qed.

(** ** The idempotency gate inside the bulk handler *)

Lemma ingest_header_spec db bucket paths header w :
  StoreSpec db →
  ingest_header db bucket paths header w =
  (Return (header ++ leaf_signatures bucket (unprocessed w paths)),
   set_logged (λ l, l ++ already_processed_messages w paths) w).
Proof.
  intros Hdb. revert header w. induction paths as [|p rest IH]; intros header w.
  - destruct w. unfold set_logged. simpl. rewrite !app_nil_r. reflexivity.
  - cbn [ingest_header].
    erewrite run_bind_return by apply (table_exists_spec _ Hdb).
    unfold unprocessed, already_processed_messages, leaf_signatures.
    rewrite !filter_cons.
    destruct (decide (table_metadata w !! p = None)) as [Hp|Hp].
    + rewrite Hp. rewrite bool_decide_eq_false_2 by (by intros [? ?]).
      simpl. rewrite IH. rewrite <- app_assoc. reflexivity.
    + rewrite bool_decide_eq_true_2 by (by apply not_eq_None_Some).
      simpl. rewrite decide_True by (by apply not_eq_None_Some).
      unfold logging.info.
      erewrite run_bind_return by reflexivity.
      rewrite IH. unfold unprocessed, already_processed_messages, leaf_signatures.
      destruct w. unfold set_logged. simpl. rewrite <- app_assoc. reflexivity.
Qed.

(** ** Bulk ingestion *)

Lemma module_get_tables_as_written bucket objs w :
  minio_objects w !! bucket = Some objs →
  io_get_tables io_tools.module bucket w = (Return objs, w).
Proof. apply (get_tables_spec _ repaired_io_spec). Qed.

Lemma unprocessed_all w paths :
  Forall (λ p, table_metadata w !! p = None) paths → unprocessed w paths = paths.
Proof.
  unfold unprocessed. induction 1 as [|p rest Hp _ IH]; [done|].
  rewrite filter_cons, decide_True by done. by rewrite IH.
Qed.

Lemma unprocessed_none w paths :
  Forall (λ p, is_Some (table_metadata w !! p)) paths → unprocessed w paths = [].
Proof.
  unfold unprocessed. induction 1 as [|p rest [t Hp] _ IH]; [done|].
  rewrite filter_cons, decide_False by (by rewrite Hp). done.
Qed.

(** What the bulk handler does once the listing is known to be non-empty. *)
Lemma IngestData_get_submits db request bucket paths w :
  StoreSpec db →
  args_get request "bucket" = Some bucket → bucket ≠ EmptyString →
  minio_objects w !! bucket = Some paths → paths ≠ [] →
  let n := uuid_counter w in
  let header := leaf_signatures bucket (unprocessed w paths) in
  let k := length header in
  let root := AsyncResult (fresh (n + k + 1))
                (Some (GroupResult (fresh (n + k)) None (group_results n header))) in
  IngestData_get io_tools.module db request w =
  (Return (accepted (fresh (n + k + 1)) "Ingestion"),
   set_celery_tasks <[fresh (n + k + 1) := as_tuple root]>
     (set_saved_groups <[fresh (n + k) := result_id <$> group_results n header]>
        (set_broker (λ l, l ++ group_jobs n header
                           ++ [{| job_id := fresh (n + k + 1);
                                  job_sig := Task.si "profile_valentine_all" [bucket];
                                  job_after := result_id <$> group_results n header |}])
           (set_uuid_counter (λ c, c + k + 2)
              (set_logged (λ l, l ++ already_processed_messages w paths) w))))).
Proof.
  intros Hdb Hreq Hne Hobjs Hpaths n header k root.
  unfold IngestData_get. rewrite Hreq, truthy_Some by done. simpl.
  erewrite run_bind_return by apply module_bucket_exists_as_written.
  rewrite Hobjs, bool_decide_eq_true_2 by eauto. simpl.
  erewrite run_bind_return by (by apply module_get_tables_as_written).
  rewrite bool_decide_eq_false_2 by (by destruct paths).
  erewrite run_bind_return by apply (ingest_header_spec _ _ _ _ _ Hdb).
  erewrite run_bind_return by apply chord_spec.
  erewrite run_bind_return by reflexivity.
  erewrite run_bind_return by apply (save_celery_task_spec _ Hdb).
  reflexivity.
Qed.

(** Over a store that meets the interface: a bucket lists the units A and B
    and neither has metadata; the bulk handler answers 202 with the identifier of the finalize job, the
    topology persisted under that identifier has the finalize job as its
    root with exactly the ingest jobs of A and B as children, in that order
    and without children of their own, the two ingest jobs wait for nothing,
    and the finalize job waits for both and is called with the bucket alone
    whatever the leaves return. *)
Lemma IngestData_get_fan_out_fan_in db request bucket A B w :
  StoreSpec db →
  args_get request "bucket" = Some bucket → bucket ≠ EmptyString →
  minio_objects w !! bucket = Some [A; B] →
  table_metadata w !! A = None → table_metadata w !! B = None →
  let n := uuid_counter w in
  let a := fresh n in
  let b := fresh (n + 1) in
  let g := fresh (n + 2) in
  let f := fresh (n + 3) in
  let finalize := Task.si "profile_valentine_all" [bucket] in
  ∃ w' t,
    IngestData_get io_tools.module db request w = (Return (accepted f "Ingestion"), w')
    ∧ celery_tasks w' !! f = Some t
    ∧ t = RTuple f (Some (RTuple g None (Some [RTuple a None None; RTuple b None None]))) None
    ∧ topology t = MkNode f [MkNode a []; MkNode b []]
    ∧ broker w' = broker w ++
        [ {| job_id := a; job_sig := Task.s "add_table" [bucket; A]; job_after := [] |};
          {| job_id := b; job_sig := Task.s "add_table" [bucket; B]; job_after := [] |};
          {| job_id := f; job_sig := finalize; job_after := [a; b] |} ]
    ∧ (∀ upstream, call_args finalize upstream = [Lit bucket])
    ∧ NoDup [a; b; f].
Proof.
  intros Hdb Hreq Hne Hobjs HA HB n a b g f finalize.
  pose proof (IngestData_get_submits db request bucket [A; B] w Hdb Hreq Hne Hobjs) as Hrun.
  rewrite unprocessed_all in Hrun by (repeat constructor; done).
  specialize (Hrun ltac:(done)). simpl in Hrun.
  replace (uuid_counter w + 2 + 1) with (uuid_counter w + 3) in Hrun by lia.
  replace (S (uuid_counter w)) with (uuid_counter w + 1) in Hrun by lia.
  eexists _, _. split; [exact Hrun|].
  split; [apply lookup_insert_eq|].
  split; [reflexivity|].
  split; [reflexivity|].
  split; [reflexivity|].
  split; [by intros []|].
  change (NoDup (fresh <$> [n; n + 1; n + 3])). apply (NoDup_fmap_2 fresh).
  rewrite !NoDup_cons, NoDup_nil, !elem_of_cons, !elem_of_nil. lia.
Qed.

(** C1 (defect in the code).  The bucket "data" lists a.csv and b.csv and
    neither is recorded as processed.  With the modules as written the bulk
    handler raises at its first store call, with or without line 6 of the
    store module: nothing is submitted, nothing is persisted and no
    identifier is returned.  The same request over a store
    that meets the interface gives what the claim describes: 202 with the
    finalize identifier, persisted as the root over the two ingest jobs in
    listing order, themselves without children, the finalize job being
    called with the bucket alone. *)
Theorem IngestData_get_two_units_as_written :
  let request := {| query := [("bucket", "data")] |} in
  minio_objects world0 !! "data" = Some ["a.csv"; "b.csv"]
  ∧ unprocessed world0 ["a.csv"; "b.csv"] = ["a.csv"; "b.csv"]
  ∧ IngestData_get io_tools.module redis_tools.module request world0
    = (Raise store_import_error, world0)
  ∧ IngestData_get io_tools.module redis_tools.importable request world0
    = (Raise (store_attribute_error "table_exists"), world0)
  ∧ ∃ w' t,
      IngestData_get io_tools.module memory_store request world0
      = (Return (accepted "task-3" "Ingestion"), w')
      ∧ celery_tasks w' !! "task-3" = Some t
      ∧ t = RTuple "task-3"
              (Some (RTuple "task-2" None
                       (Some [RTuple "task-0" None None; RTuple "task-1" None None]))) None
      ∧ topology t = MkNode "task-3" [MkNode "task-0" []; MkNode "task-1" []]
      ∧ broker w' = [] ++
          [ {| job_id := "task-0"; job_sig := Task.s "add_table" ["data"; "a.csv"];
               job_after := [] |};
            {| job_id := "task-1"; job_sig := Task.s "add_table" ["data"; "b.csv"];
               job_after := [] |};
            {| job_id := "task-3"; job_sig := Task.si "profile_valentine_all" ["data"];
               job_after := ["task-0"; "task-1"] |} ]
      ∧ (∀ upstream,
           call_args (Task.si "profile_valentine_all" ["data"]) upstream = [Lit "data"])
      ∧ NoDup ["task-0"; "task-1"; "task-3"].
Proof.
  intros request.
  do 4 (split; [reflexivity|]).
  apply (IngestData_get_fan_out_fan_in memory_store request "data" "a.csv" "b.csv" world0);
    [exact memory_store_spec | reflexivity | discriminate | reflexivity
    | reflexivity | reflexivity].
Qed.

(** Over collaborators that meet the interfaces, the idempotency gate of
    the bulk handler yields one ingest
    signature for exactly the listed paths without metadata, in listing
    order; those and no others are submitted as leaves, followed by the
    finalize job.  A single-table addition for a path that has metadata
    answers 204 "Table was already processed" and submits nothing. *)
Lemma idempotency_gate io db bulk single bucket paths C w :
  IoSpec io → StoreSpec db →
  args_get bulk "bucket" = Some bucket → bucket ≠ EmptyString →
  minio_objects w !! bucket = Some paths → paths ≠ [] →
  args_get single "bucket" = Some bucket →
  args_get single "table_path" = Some C → C ∈ paths → C ≠ EmptyString →
  is_Some (table_metadata w !! C) →
  (ingest_header db bucket paths [] w).1
    = Return (leaf_signatures bucket (unprocessed w paths))
  ∧ (∀ p, (p ∈ unprocessed w paths) ↔ (p ∈ paths ∧ table_metadata w !! p = None))
  ∧ (C ∉ unprocessed w paths)
  ∧ (∃ task_id w' leaves finalize,
       IngestData_get io_tools.module db bulk w = (Return (accepted task_id "Ingestion"), w')
       ∧ broker w' = broker w ++ leaves ++ [finalize]
       ∧ job_sig <$> leaves = leaf_signatures bucket (unprocessed w paths)
       ∧ job_sig finalize = Task.si "profile_valentine_all" [bucket])
  ∧ AddTable_get io db single w
    = (Return {| body := Text "Table was already processed"; status := 204 |}, w).
Proof.
  intros Hio Hdb Hbulk Hne Hobjs Hpaths Hsb Hsp HC HCne [t Ht].
  split; [by rewrite (ingest_header_spec _ _ _ _ _ Hdb)|].
  assert (Hsub : ∀ p, (p ∈ unprocessed w paths)
                      ↔ (p ∈ paths ∧ table_metadata w !! p = None)).
  { intros p. unfold unprocessed. rewrite list_elem_of_filter. tauto. }
  split; [exact Hsub|].
  split; [rewrite Hsub; intros [_ H]; congruence|].
  split.
  - eexists _, _, _, _. split.
    + by apply IngestData_get_submits.
    + simpl. split; [reflexivity|]. split; [apply group_jobs_sigs | reflexivity].
  - unfold AddTable_get. rewrite Hsb, Hsp, !truthy_Some by done. simpl.
    erewrite run_bind_return by apply (bucket_exists_spec _ Hio).
    rewrite Hobjs, bool_decide_eq_true_2 by eauto. simpl.
    erewrite run_bind_return by (by apply (io_table_exists_spec _ Hio)).
    rewrite bool_decide_eq_true_2 by done. simpl.
    erewrite run_bind_return by apply (get_table_spec _ Hdb).
    rewrite Ht, bool_decide_eq_true_2 by eauto. reflexivity.
Qed.

(** C3 (defect in the code).  In the bucket "data", a.csv is recorded as
    processed and b.csv is not.  With the files as written the application
    does not load, so neither the bulk request nor the single-table request
    for a.csv reaches a handler: both end with the import error of the store
    file, and the gate, run on its own, raises at its first lookup, so no
    leaf is submitted for b.csv either.  With a store file that imports, the
    single-table handler raises [NameError] at the existence check, before
    its lookup.  Over collaborators that meet the interfaces the gate lets
    exactly b.csv through, b.csv alone is submitted as a leaf before the
    finalize job, and the single-table handler answers "Table was already
    processed". *)
Theorem idempotency_gate_as_written :
  let bulk := {| query := [("bucket", "data")] |} in
  let single := {| query := [("bucket", "data"); ("table_path", "a.csv")] |} in
  (table_metadata world_a !! "a.csv" = Some table_a
   ∧ table_metadata world_a !! "b.csv" = None)
  ∧ ingest_header redis_tools.module "data" ["a.csv"; "b.csv"] [] world_a
    = (Raise store_import_error, world_a)
  ∧ IngestData_get io_tools.module redis_tools.module bulk world_a
    = (Raise store_import_error, world_a)
  ∧ IngestData_get io_tools.module redis_tools.importable bulk world_a
    = (Raise (store_attribute_error "table_exists"), world_a)
  ∧ app.serve redis_tools.source (IngestData_get io_tools.module) bulk world_a
    = (Raise store_import_error, world_a)
  ∧ app.serve redis_tools.source (AddTable_get io_tools.module) single world_a
    = (Raise store_import_error, world_a)
  ∧ AddTable_get io_tools.module redis_tools.importable single world_a
    = (Raise (NameError "path"), world_a)
  ∧ AddTable_get io_tools.repaired redis_tools.module single world_a
    = (Raise store_import_error, world_a)
  ∧ (ingest_header memory_store "data" ["a.csv"; "b.csv"] [] world_a).1
    = Return [Task.s "add_table" ["data"; "b.csv"]]
  ∧ (∃ w',
       IngestData_get io_tools.module memory_store bulk world_a
       = (Return (accepted "task-2" "Ingestion"), w')
       ∧ broker w' =
           [ {| job_id := "task-0"; job_sig := Task.s "add_table" ["data"; "b.csv"];
                job_after := [] |};
             {| job_id := "task-2"; job_sig := Task.si "profile_valentine_all" ["data"];
                job_after := ["task-0"] |} ])
  ∧ AddTable_get io_tools.repaired memory_store single world_a
    = (Return {| body := Text "Table was already processed"; status := 204 |}, world_a).
Proof.
  intros bulk single.
  split; [split; reflexivity|].
  do 7 (split; [reflexivity|]).
  pose proof (idempotency_gate io_tools.repaired memory_store bulk single "data"
                ["a.csv"; "b.csv"] "a.csv" world_a repaired_io_spec memory_store_spec
                eq_refl ltac:(discriminate) eq_refl ltac:(discriminate) eq_refl eq_refl
                ltac:(apply list_elem_of_here) ltac:(discriminate)
                ltac:(by exists table_a)) as (Hgate & _ & _ & _ & Hsingle).
  split; [exact Hgate|].
  split; [|exact Hsingle].
  eexists. split; vm_compute; reflexivity.
Qed.

(** C2, as stated, fails: with both tables of the bucket already processed
    the bulk handler over a working store submits the finalize job and
    answers with its identifier, and over the store module as written it
    raises; neither is a "nothing to do" answer. *)
Lemma IngestData_get_all_processed_counterexample :
  let request := {| query := [("bucket", "data")] |} in
  minio_objects world_ab !! "data" = Some ["a.csv"; "b.csv"]
  ∧ unprocessed world_ab ["a.csv"; "b.csv"] = []
  ∧ ¬ signals_nothing_to_do memory_store request world_ab
  ∧ ¬ signals_nothing_to_do redis_tools.module request world_ab.
Proof.
  intros request. split; [reflexivity|]. split; [reflexivity|]. split.
  - intros (resp & w' & Hrun & _ & Hresp).
    assert (Hgot : (IngestData_get io_tools.module memory_store request world_ab).1
                   = Return (accepted "task-1" "Ingestion")) by (vm_compute; reflexivity).
    rewrite Hrun in Hgot. simpl in Hgot. injection Hgot as ->. by eapply Hresp.
  - intros (resp & w' & Hrun & _).
    assert (Hgot : (IngestData_get io_tools.module redis_tools.module request world_ab).1
                   = Raise store_import_error) by (vm_compute; reflexivity).
    rewrite Hrun in Hgot. discriminate.
Qed.

(** Over a store that meets the interface, and with every listed table
    already processed: an empty listing is answered 204 "Bucket is empty";
    for a non-empty listing the chord is still applied, with an empty
    header: the finalize job is submitted waiting for nothing and the answer
    is 202 with its identifier, under which the topology is persisted. *)
Lemma IngestData_get_all_processed db request bucket paths w :
  StoreSpec db →
  args_get request "bucket" = Some bucket → bucket ≠ EmptyString →
  minio_objects w !! bucket = Some paths →
  Forall (λ p, is_Some (table_metadata w !! p)) paths →
  match paths with
  | [] =>
      IngestData_get io_tools.module db request w
      = (Return {| body := Text "Bucket is empty"; status := 204 |}, w)
  | _ :: _ =>
      let g := fresh (uuid_counter w) in
      let f := fresh (uuid_counter w + 1) in
      ∃ w',
        IngestData_get io_tools.module db request w = (Return (accepted f "Ingestion"), w')
        ∧ broker w' = broker w ++
            [ {| job_id := f; job_sig := Task.si "profile_valentine_all" [bucket];
                 job_after := [] |} ]
        ∧ celery_tasks w' !! f = Some (RTuple f (Some (RTuple g None (Some []))) None)
  end.
Proof.
  intros Hdb Hreq Hne Hobjs Hall. destruct paths as [|p rest].
  - unfold IngestData_get. rewrite Hreq, truthy_Some by done. simpl.
    erewrite run_bind_return by apply module_bucket_exists_as_written.
    rewrite Hobjs, bool_decide_eq_true_2 by eauto. simpl.
    erewrite run_bind_return by (by apply module_get_tables_as_written).
    reflexivity.
  - intros g f.
    pose proof (IngestData_get_submits db request bucket (p :: rest) w
                  Hdb Hreq Hne Hobjs ltac:(done)) as Hrun.
    rewrite (unprocessed_none _ _ Hall) in Hrun. simpl in Hrun.
    rewrite !Nat.add_0_r in Hrun.
    eexists. split; [exact Hrun|]. split; [reflexivity|]. apply lookup_insert_eq.
Qed.

(** C2, amended.  The one "nothing to do" answer of the bulk handler is
    204 "Bucket is empty": the handler gives it when the bucket lists no
    table at all, on the listing as it is before any idempotency filtering,
    whatever store it runs on; nothing is submitted and no identifier is
    returned. *)
Theorem IngestData_get_empty_listing db request bucket w :
  args_get request "bucket" = Some bucket → bucket ≠ EmptyString →
  minio_objects w !! bucket = Some [] →
  IngestData_get io_tools.module db request w
  = (Return {| body := Text "Bucket is empty"; status := 204 |}, w).
Proof.
  intros Hreq Hne Hobjs.
  unfold IngestData_get. rewrite Hreq, truthy_Some by done. simpl.
  erewrite run_bind_return by apply module_bucket_exists_as_written.
  rewrite Hobjs, bool_decide_eq_true_2 by eauto. simpl.
  erewrite run_bind_return by (by apply module_get_tables_as_written).
  reflexivity.
Qed.

Lemma IngestData_get_empty_listing_witness :
  IngestData_get io_tools.module memory_store
    {| query := [("bucket", "data")] |} world_empty_bucket
  = (Return {| body := Text "Bucket is empty"; status := 204 |}, world_empty_bucket).
Proof.
  apply (IngestData_get_empty_listing memory_store
           {| query := [("bucket", "data")] |} "data" world_empty_bucket);
    [reflexivity | discriminate | reflexivity].
Defined.

Example IngestData_get_all_processed_example :
  ∃ w',
    IngestData_get io_tools.module memory_store {| query := [("bucket", "data")] |} world_ab
    = (Return (accepted "task-1" "Ingestion"), w')
    ∧ broker w' = [] ++
        [ {| job_id := "task-1"; job_sig := Task.si "profile_valentine_all" ["data"];
             job_after := [] |} ]
    ∧ celery_tasks w' !! "task-1"
      = Some (RTuple "task-1" (Some (RTuple "task-0" None (Some []))) None).
Proof.
  apply (IngestData_get_all_processed memory_store {| query := [("bucket", "data")] |}
           "data" ["a.csv"; "b.csv"] world_ab);
    [exact memory_store_spec | reflexivity | discriminate | reflexivity |].
  repeat constructor; eexists; reflexivity.
Qed.

(** ** Single-table addition *)

Lemma chain_two_spec first second w :
  let n := uuid_counter w in
  celery.chain first [second] w =
  (Return (AsyncResult (fresh (n + 1)) (Some (AsyncResult (fresh n) None))),
   set_broker (λ l, l ++ [ {| job_id := fresh n; job_sig := first; job_after := [] |};
                           {| job_id := fresh (n + 1); job_sig := second;
                              job_after := [fresh n] |} ])
     (set_uuid_counter (λ c, c + 2) w)).
Proof.
  intros n. subst n. destruct w. simpl.
  replace (uuid_counter0 + 1) with (S uuid_counter0) by lia.
  unfold set_broker, set_uuid_counter. simpl.
  replace (uuid_counter0 + 2) with (S (S uuid_counter0)) by lia.
  match goal with
  | |- context [broker0 ++ [?a; ?b]] =>
      change (broker0 ++ [a; b]) with (broker0 ++ ([a] ++ [b]));
      rewrite (app_assoc broker0 [a] [b])
  end.
  reflexivity.
Qed.

(** Over collaborators that meet the interfaces, adding the single unit C
    (present in the bucket, without metadata) answers 202 and persists a chain of two jobs: the ingest job of C, which
    waits for nothing, and the profile job of C, which waits for the ingest
    job and whose identifier is the root.  Both jobs are called with the
    bucket and the path of C, whatever the previous stage returned. *)
Lemma AddTable_get_chain io db request bucket C objs w :
  IoSpec io → StoreSpec db →
  args_get request "bucket" = Some bucket → bucket ≠ EmptyString →
  args_get request "table_path" = Some C → C ≠ EmptyString →
  minio_objects w !! bucket = Some objs → C ∈ objs →
  table_metadata w !! C = None →
  let i := fresh (uuid_counter w) in
  let p := fresh (uuid_counter w + 1) in
  let ingest := Task.si "add_table" [bucket; C] in
  let profile := Task.si "profile_valentine_star" [bucket; C] in
  ∃ w' t,
    AddTable_get io db request w = (Return (accepted p "Single Ingestion"), w')
    ∧ celery_tasks w' !! p = Some t
    ∧ t = RTuple p (Some (RTuple i None None)) None
    ∧ topology t = MkNode p [MkNode i []]
    ∧ broker w' = broker w ++
        [ {| job_id := i; job_sig := ingest; job_after := [] |};
          {| job_id := p; job_sig := profile; job_after := [i] |} ]
    ∧ (∀ upstream, call_args ingest upstream = [Lit bucket; Lit C]
                   ∧ call_args profile upstream = [Lit bucket; Lit C])
    ∧ i ≠ p.
Proof.
  intros Hio Hdb Hb Hbne Hp Hpne Hobjs HC Hnone i p ingest profile.
  eexists _, _. split.
  { unfold AddTable_get. rewrite Hb, Hp, !truthy_Some by done. simpl.
    erewrite run_bind_return by apply (bucket_exists_spec _ Hio).
    rewrite Hobjs, bool_decide_eq_true_2 by eauto. simpl.
    erewrite run_bind_return by (by apply (io_table_exists_spec _ Hio)).
    rewrite bool_decide_eq_true_2 by done. simpl.
    erewrite run_bind_return by apply (get_table_spec _ Hdb).
    rewrite Hnone, bool_decide_eq_false_2 by (by intros [? ?]).
    erewrite run_bind_return by apply chain_two_spec.
    erewrite run_bind_return by apply (save_celery_task_spec _ Hdb).
    reflexivity. }
  split; [apply lookup_insert_eq|].
  split; [reflexivity|]. split; [reflexivity|].
  split; [reflexivity|].
  split; [by intros []|].
  intros H. apply fresh_inj in H. lia.
Qed.

(** C5 (defect in the code).  The table b.csv is in the bucket "data" and
    has no metadata.  With the files as written the application does not
    load and the request ends with the import error of the store file.  With
    a store file that imports, the single-table handler raises [NameError]
    at the existence check, and with the check repaired it raises at the
    store lookup: no chain is built or persisted.  Over collaborators that
    meet the interfaces the same request
    gives what the claim describes: the chain of the ingest job and then the
    profile job of b.csv, persisted under the profile job's identifier, each
    job called with the bucket and the path only. *)
Theorem AddTable_get_chain_as_written :
  let request := {| query := [("bucket", "data"); ("table_path", "b.csv")] |} in
  (minio_objects world_a !! "data" = Some ["a.csv"; "b.csv"]
   ∧ table_metadata world_a !! "b.csv" = None)
  ∧ app.serve redis_tools.source (AddTable_get io_tools.module) request world_a
    = (Raise store_import_error, world_a)
  ∧ AddTable_get io_tools.module redis_tools.importable request world_a
    = (Raise (NameError "path"), world_a)
  ∧ AddTable_get io_tools.module memory_store request world_a
    = (Raise (NameError "path"), world_a)
  ∧ AddTable_get io_tools.repaired redis_tools.module request world_a
    = (Raise store_import_error, world_a)
  ∧ AddTable_get io_tools.repaired redis_tools.importable request world_a
    = (Raise (store_attribute_error "get_table"), world_a)
  ∧ ∃ w' t,
      AddTable_get io_tools.repaired memory_store request world_a
      = (Return (accepted "task-1" "Single Ingestion"), w')
      ∧ celery_tasks w' !! "task-1" = Some t
      ∧ t = RTuple "task-1" (Some (RTuple "task-0" None None)) None
      ∧ topology t = MkNode "task-1" [MkNode "task-0" []]
      ∧ broker w' = [] ++
          [ {| job_id := "task-0"; job_sig := Task.si "add_table" ["data"; "b.csv"];
               job_after := [] |};
            {| job_id := "task-1";
               job_sig := Task.si "profile_valentine_star" ["data"; "b.csv"];
               job_after := ["task-0"] |} ]
      ∧ (∀ upstream,
           call_args (Task.si "add_table" ["data"; "b.csv"]) upstream
           = [Lit "data"; Lit "b.csv"]
           ∧ call_args (Task.si "profile_valentine_star" ["data"; "b.csv"]) upstream
             = [Lit "data"; Lit "b.csv"])
      ∧ "task-0" ≠ "task-1".
Proof.
  intros request.
  split; [split; reflexivity|].
  do 5 (split; [reflexivity|]).
  apply (AddTable_get_chain io_tools.repaired memory_store request
           "data" "b.csv" ["a.csv"; "b.csv"] world_a);
    [exact repaired_io_spec | exact memory_store_spec | reflexivity | discriminate
    | reflexivity | discriminate | reflexivity
    | apply list_elem_of_further, list_elem_of_here | reflexivity].
Qed.
(** ** /task-status *)

(** Over a store that meets the interface, a status query carrying an
    identifier under which no topology is persisted is answered with 404
    "Task does not exist", and nothing else happens: no status tree is
    built. *)
Lemma TaskStatus_get_unknown_id db gst request task_id w :
  StoreSpec db →
  args_get request "task_id" = Some task_id →
  task_id ≠ EmptyString →
  celery_tasks w !! task_id = None →
  TaskStatus_get db gst request w = (Return not_found, w).
Proof.
  intros Hdb Hreq Hne Hnone.
  unfold TaskStatus_get. rewrite Hreq. simpl.
  rewrite bool_decide_eq_false_2 by done. simpl.
  erewrite run_bind_return by apply (get_celery_task_spec _ Hdb).
  rewrite Hnone. reflexivity.
Qed.

(** C6 (defect in the code).  No topology is persisted under "task-7".
    With the store module as written the status query raises at the store
    lookup instead of answering; over a store that meets the interface it
    answers 404 "Task does not exist", as the claim says. *)
Theorem TaskStatus_get_unknown_id_as_written :
  let request := {| query := [("task_id", "task-7")] |} in
  celery_tasks world0 !! "task-7" = None
  ∧ TaskStatus_get redis_tools.module generate_status_tree request world0
    = (Raise store_import_error, world0)
  ∧ TaskStatus_get redis_tools.importable generate_status_tree request world0
    = (Raise (store_attribute_error "get_celery_task"), world0)
  ∧ TaskStatus_get memory_store generate_status_tree request world0
    = (Return not_found, world0).
Proof.
  intros request.
  do 3 (split; [reflexivity|]).
  apply (TaskStatus_get_unknown_id _ _ _ "task-7");
    [exact memory_store_spec | reflexivity | discriminate | reflexivity].
Qed.

(** ** Status reconstruction *)

Lemma rtuple_nested_ind (P : rtuple → Prop) :
  (∀ i parent children,
     from_option P True parent →
     from_option (Forall P) True children →
     P (RTuple i parent children)) →
  ∀ t, P t.
Proof.
  intros H. fix IH 1. intros [i parent children]. apply H.
  - destruct parent as [p|]; simpl; [apply IH | exact I].
  - destruct children as [l|]; simpl; [|exact I].
    induction l as [|c l IHl]; constructor; [apply IH | exact IHl].
Qed.

Lemma Node_nested_ind (P : Node → Prop) :
  (∀ i cs, Forall P cs → P (MkNode i cs)) → ∀ n, P n.
Proof.
  intros H. fix IH 1. intros [i cs]. apply H.
  induction cs as [|c cs IHcs]; constructor; [apply IH | exact IHcs].
Qed.

(** What [as_tuple] wrote is read back as the same structure. *)
Lemma as_tuple_result_from_tuple t : as_tuple (result_from_tuple t) = t.
Proof.
  induction t as [i parent children IHp IHc] using rtuple_nested_ind.
  destruct children as [l|], parent as [p|]; simpl in *; rewrite ?IHp; f_equal.
  - f_equal. induction IHc as [|c l Hc _ IHl]; simpl; [done|]. by rewrite Hc, IHl.
  - f_equal. induction IHc as [|c l Hc _ IHl]; simpl; [done|]. by rewrite Hc, IHl.
Qed.

Lemma status_tree_unfold parent i cs :
  status_tree parent (MkNode i cs) =
  (st ← query_state i;
   job ← gets (find_job i);
   children ← status_children i cs;
   mret (JObject
           [ ("name", from_option (λ j, JString (task (job_sig j))) JNull job);
             ("args", from_option (λ j, JArray (JString <$> args (job_sig j))) JNull job);
             ("status", JString (state_name st));
             ("id", JString i);
             ("children", JArray children);
             ("parent", from_option JString JNull parent) ])).
Proof.
  assert (Hloop : ∀ l,
    (fix go (l : list Node) : M (list json) :=
       match l with
       | [] => mret []
       | c :: l' => x ← status_tree (Some i) c; xs ← go l'; mret (x :: xs)
       end) l = status_children i l).
  { induction l as [|c l IHl]; [reflexivity|]. cbn [status_children]. by rewrite <- IHl. }
  cbn [status_tree]. by rewrite Hloop.
Qed.

Lemma find_app_first {A} (f : A → bool) l1 l2 :
  List.find f (l1 ++ l2) =
  match List.find f l1 with Some x => Some x | None => List.find f l2 end.
Proof. induction l1 as [|x l1 IH]; simpl; [done|]. by destruct (f x). Qed.

(** Reconstruction never changes the world; it raises for the first job, in
    depth-first order, that the backend cannot be asked about, and returns a
    tree when there is none. *)
Lemma status_tree_run n : ∀ parent w,
  match List.find (is_unreachable w) (node_ids n) with
  | Some i => status_tree parent n w = (Raise (BackendUnavailable i), w)
  | None => ∃ j, status_tree parent n w = (Return j, w)
  end.
Proof.
  induction n as [i cs IH] using Node_nested_ind. intros parent w.
  rewrite status_tree_unfold. cbn [node_ids List.find].
  unfold is_unreachable at 1.
  destruct (bool_decide (i ∈ unreachable w)) eqn:Hdown.
  { rewrite run_bind. unfold query_state. by rewrite Hdown. }
  assert (Hq : query_state i w = (Return (default PENDING (task_states w !! i)), w)).
  { unfold query_state. by rewrite Hdown. }
  erewrite run_bind_return by exact Hq.
  erewrite run_bind_return by reflexivity.
  assert (Hloop :
    match List.find (is_unreachable w) (concat (List.map node_ids cs)) with
    | Some k => status_children i cs w = (Raise (BackendUnavailable k), w)
    | None => ∃ js, status_children i cs w = (Return js, w)
    end).
  { induction IH as [|c cs Hc _ IHcs]; [by eexists|].
    cbn [List.map concat status_children]. rewrite find_app_first.
    specialize (Hc (Some i) w).
    destruct (List.find (is_unreachable w) (node_ids c)) as [k|].
    - by rewrite run_bind, Hc.
    - destruct Hc as [j Hj]. rewrite run_bind, Hj.
      destruct (List.find _ (concat _)) as [k|].
      + by rewrite run_bind, IHcs.
      + destruct IHcs as [js Hjs]. rewrite run_bind, Hjs. by eexists. }
  destruct (List.find _ (concat _)) as [k|].
  - by rewrite run_bind, Hloop.
  - destruct Hloop as [js Hjs]. rewrite run_bind, Hjs. by eexists.
Qed.

(** C7.  A status query for a persisted topology one of whose nodes the
    backend cannot be asked about is never answered with a tree: the query
    fails as a whole.  Over a store that meets the interface the failure is
    [BackendUnavailable] for such a node, raised by the reconstruction
    itself; over the store module as written (with or without its line 6)
    the query fails before the reconstruction starts. *)
Theorem TaskStatus_get_backend_unavailable db request task_id t w :
  StoreSpec db ∨ db = redis_tools.module ∨ db = redis_tools.importable →
  args_get request "task_id" = Some task_id → task_id ≠ EmptyString →
  celery_tasks w !! task_id = Some t →
  (∃ i, i ∈ node_ids (topology t) ∧ i ∈ unreachable w) →
  ∃ e,
    TaskStatus_get db generate_status_tree request w = (Raise e, w)
    ∧ (StoreSpec db →
       ∃ i, i ∈ node_ids (topology t) ∧ i ∈ unreachable w
            ∧ e = BackendUnavailable i
            ∧ generate_status_tree (result_from_tuple t) w
              = (Raise (BackendUnavailable i), w)).
Proof.
  intros Hstore Hreq Hne Ht (i & Hin & Hdown).
  pose proof (status_tree_run (topology t) None w) as Hrun.
  destruct (List.find (is_unreachable w) (node_ids (topology t))) as [k|] eqn:Hfind.
  - apply find_some in Hfind as [Hk Hkdown].
    assert (Hgen : generate_status_tree (result_from_tuple t) w
                   = (Raise (BackendUnavailable k), w)).
    { unfold generate_status_tree. by rewrite as_tuple_result_from_tuple. }
    assert (Hconforming : ∀ db', StoreSpec db' →
              TaskStatus_get db' generate_status_tree request w
              = (Raise (BackendUnavailable k), w)).
    { intros db' Hdb. unfold TaskStatus_get. rewrite Hreq, truthy_Some by done. simpl.
      erewrite run_bind_return by apply (get_celery_task_spec _ Hdb).
      rewrite Ht. by erewrite run_bind_raise by exact Hgen. }
    destruct Hstore as [Hdb | Hwritten].
    + exists (BackendUnavailable k). split; [by apply Hconforming|].
      intros _. exists k. split; [by apply list_elem_of_In|].
      split; [unfold is_unreachable in Hkdown; by apply bool_decide_eq_true in Hkdown|].
      split; [reflexivity | exact Hgen].
    + assert (∃ m, db = redis_tools.module_of m) as [m ->]
        by (destruct Hwritten as [-> | ->]; eexists; reflexivity).
      assert (Hrun' : TaskStatus_get (redis_tools.module_of m) generate_status_tree request w
                      = (Raise (call_error m "get_celery_task"), w)).
      { unfold TaskStatus_get. rewrite Hreq, truthy_Some by done. simpl.
        erewrite run_bind_raise; [reflexivity|]. apply module_call_without_def. }
      exists (call_error m "get_celery_task"). split; [exact Hrun'|].
      intros Hdb. pose proof (get_celery_task_spec _ Hdb task_id w) as Hget.
      simpl in Hget. rewrite module_call_without_def in Hget. discriminate Hget.
  - exfalso. apply list_elem_of_In in Hin.
    pose proof (find_none _ _ Hfind i Hin) as Hno.
    unfold is_unreachable in Hno. by apply bool_decide_eq_false in Hno.
Qed.

Lemma TaskStatus_get_backend_unavailable_witness :
  ∃ e,
    TaskStatus_get memory_store generate_status_tree
      {| query := [("task_id", "task-3")] |} world_partition
    = (Raise e, world_partition)
    ∧ (StoreSpec memory_store →
       ∃ i,
         i ∈ node_ids (topology (RTuple "task-3"
                          (Some (RTuple "task-2" None
                                   (Some [RTuple "task-0" None None;
                                          RTuple "task-1" None None])))
                          None))
         ∧ i ∈ unreachable world_partition
         ∧ e = BackendUnavailable i
         ∧ generate_status_tree
             (result_from_tuple
                (RTuple "task-3"
                   (Some (RTuple "task-2" None
                            (Some [RTuple "task-0" None None; RTuple "task-1" None None])))
                   None)) world_partition
           = (Raise (BackendUnavailable i), world_partition)).
Proof.
  apply (TaskStatus_get_backend_unavailable memory_store
           {| query := [("task_id", "task-3")] |} "task-3" _ world_partition).
  - left. split; reflexivity.
  - reflexivity.
  - discriminate.
  - vm_compute. reflexivity.
  - exists "task-1". split.
    + simpl. apply list_elem_of_further, list_elem_of_further, list_elem_of_here.
    + vm_compute. reflexivity.
Defined.

Example backend_unavailable_for_second_leaf :
  TaskStatus_get memory_store generate_status_tree
    {| query := [("task_id", "task-3")] |} world_partition
  = (Raise (BackendUnavailable "task-1"), world_partition).
Proof. vm_compute. reflexivity. Qed.

Example status_after_submission_is_pending :
  (TaskStatus_get memory_store generate_status_tree
     {| query := [("task_id", "task-3")] |} world_submitted).1
  = Return
      {| body :=
           Json (JObject
             [ ("name", JString "profile_valentine_all");
               ("args", JArray [JString "data"]);
               ("status", JString "PENDING");
               ("id", JString "task-3");
               ("children",
                JArray
                  [ JObject [ ("name", JString "add_table");
                              ("args", JArray [JString "data"; JString "a.csv"]);
                              ("status", JString "PENDING");
                              ("id", JString "task-0");
                              ("children", JArray []);
                              ("parent", JString "task-3") ];
                    JObject [ ("name", JString "add_table");
                              ("args", JArray [JString "data"; JString "b.csv"]);
                              ("status", JString "PENDING");
                              ("id", JString "task-1");
                              ("children", JArray []);
                              ("parent", JString "task-3") ] ]);
               ("parent", JNull) ]);
         status := 200 |}.
Proof. vm_compute. reflexivity. Qed.

(** * Properties of the clients and of the data-frame functions *)

Lemma run_P_bind {A B} (m : P A) (f : A → P B) (s : Process) :
  (m ≫= f) s =
  match m s with
  | (Ok a, s') => f a s'
  | (Err e, s') => (Err e, s')
  end.
Proof. reflexivity. Qed.

(** ** clients/dask.py *)

Lemma get_client_again c s :
  dask_client s = Some c → dask.get_client s = (Ok c, s).
Proof. intros H. unfold dask.get_client. by rewrite H. Qed.

Lemma get_client_times_again c n s :
  dask_client s = Some c → get_client_times n s = (replicate n (Ok c), s).
Proof.
  intros H. induction n as [|n IH]; [reflexivity|].
  cbn [get_client_times]. rewrite (get_client_again c s H), IH. reflexivity.
Qed.

(** X1.  The Dask client is a singleton: however many times [get_client] is
    called, every call returns the same client, the client it returns is the
    one the module keeps, and at most one cluster is started for it: none
    when the module had a client already, and otherwise exactly one, made by
    [Client(threads_per_worker=4, n_workers=8)]. *)
Theorem get_client_singleton n s :
  ∃ c,
    (get_client_times (S n) s).1 = replicate (S n) (Ok c)
    ∧ dask_client (get_client_times (S n) s).2 = Some c
    ∧ clusters (get_client_times (S n) s).2
      = clusters s ++ (if dask_client s is Some _ then [] else [c])
    ∧ (∀ c0, dask_client s = Some c0 → c = c0 ∧ (get_client_times (S n) s).2 = s)
    ∧ (dask_client s = None → c = Client (length (clusters s)) 4 8).
Proof.
  destruct (dask_client s) as [c0|] eqn:Hc.
  - exists c0. rewrite (get_client_times_again c0 (S n) s Hc). simpl.
    rewrite app_nil_r. split; [done|]. split; [done|]. split; [done|].
    split; [by intros ? [= ->] | done].
  - set (c := Client (length (clusters s)) 4 8).
    exists c. cbn [get_client_times]. unfold dask.get_client at 1 2 3. rewrite Hc.
    fold c. rewrite (get_client_times_again c n (set_dask_client c s) eq_refl).
    simpl. split; [done|]. split; [done|]. split; [done|].
    split; [intros ? [=] | done].
Qed.

Lemma environ_get_run name s :
  dask.environ_get name s =
  (match environ s !! name with Some v => Ok v | None => Err (KeyError name) end, s).
Proof. unfold dask.environ_get. by destruct (environ s !! name). Qed.

Lemma get_s3_settings_run s :
  dask.get_s3_settings s =
  (match first_missing s with
   | Some v => Err (KeyError v)
   | None =>
       Ok {| key := default EmptyString (environ s !! "MINIO_ACCESS_KEY");
             secret := default EmptyString (environ s !! "MINIO_SECRET_KEY");
             endpoint_url :=
               "http://" +:+ default EmptyString (environ s !! "MINIO_HOST")
               +:+ ":" +:+ default EmptyString (environ s !! "MINIO_PORT") |}
   end, s).
Proof.
  unfold dask.get_s3_settings, first_missing, s3_variables. cbn [List.find].
  rewrite run_P_bind, environ_get_run.
  destruct (environ s !! "MINIO_ACCESS_KEY") as [k|]; [|reflexivity].
  rewrite bool_decide_eq_false_2 by done.
  rewrite run_P_bind, environ_get_run.
  destruct (environ s !! "MINIO_SECRET_KEY") as [sec|]; [|reflexivity].
  rewrite bool_decide_eq_false_2 by done.
  rewrite run_P_bind, environ_get_run.
  destruct (environ s !! "MINIO_HOST") as [host|]; [|reflexivity].
  rewrite bool_decide_eq_false_2 by done.
  rewrite run_P_bind, environ_get_run.
  destruct (environ s !! "MINIO_PORT") as [port|]; [|reflexivity].
  rewrite bool_decide_eq_false_2 by done.
  reflexivity.
Qed.

Lemma first_missing_None s :
  first_missing s = None ↔ Forall (λ v, is_Some (environ s !! v)) s3_variables.
Proof.
  unfold first_missing. split.
  - intros Hnone. apply Forall_forall. intros v Hv.
    apply list_elem_of_In in Hv.
    pose proof (find_none _ _ Hnone v Hv) as Hb.
    apply bool_decide_eq_false in Hb. by apply not_eq_None_Some.
  - intros Hall. destruct (List.find _ _) as [v|] eqn:Hfind; [|done].
    apply find_some in Hfind as [Hin Hb]. apply bool_decide_eq_true in Hb.
    apply list_elem_of_In in Hin.
    rewrite Forall_forall in Hall. destruct (Hall v Hin) as [x Hx]. congruence.
Qed.

(** X2.  [get_s3_settings] changes nothing and returns settings exactly when
    the four MinIO variables are all set; the endpoint is then
    [http://HOST:PORT].  Otherwise it raises [KeyError] for a variable that
    is not set, all the variables read before it being set. *)
Theorem get_s3_settings_needs_environment s :
  (dask.get_s3_settings s).2 = s
  ∧ ((∃ st, (dask.get_s3_settings s).1 = Ok st)
     ↔ Forall (λ v, is_Some (environ s !! v)) s3_variables)
  ∧ (∀ st, (dask.get_s3_settings s).1 = Ok st →
       environ s !! "MINIO_ACCESS_KEY" = Some (key st)
       ∧ environ s !! "MINIO_SECRET_KEY" = Some (secret st)
       ∧ ∃ host port,
           environ s !! "MINIO_HOST" = Some host
           ∧ environ s !! "MINIO_PORT" = Some port
           ∧ endpoint_url st = "http://" +:+ host +:+ ":" +:+ port)
  ∧ (∀ f, (dask.get_s3_settings s).1 = Err f →
       ∃ before v after,
         f = KeyError v ∧ s3_variables = before ++ v :: after
         ∧ environ s !! v = None
         ∧ Forall (λ u, is_Some (environ s !! u)) before).
Proof.
  rewrite get_s3_settings_run. cbn [fst snd].
  split; [reflexivity|]. split; [|split].
  - rewrite <- first_missing_None. destruct (first_missing s); split; try done.
    + by intros [? ?].
    + eauto.
  - intros st. destruct (first_missing s) as [v|] eqn:Hm; [done|].
    apply first_missing_None in Hm.
    rewrite Forall_forall in Hm.
    destruct (Hm "MINIO_ACCESS_KEY") as [k Hk]; [set_solver|].
    destruct (Hm "MINIO_SECRET_KEY") as [sec Hsec]; [set_solver|].
    destruct (Hm "MINIO_HOST") as [host Hhost]; [set_solver|].
    destruct (Hm "MINIO_PORT") as [port Hport]; [set_solver|].
    rewrite Hk, Hsec, Hhost, Hport. intros [= <-]. simpl. eauto 10.
  - intros f. unfold first_missing, s3_variables. cbn [List.find].
    destruct (environ s !! "MINIO_ACCESS_KEY") as [k|] eqn:Hk.
    2:{ rewrite bool_decide_eq_true_2 by done. intros [= <-].
        exists [], "MINIO_ACCESS_KEY", ["MINIO_SECRET_KEY"; "MINIO_HOST"; "MINIO_PORT"].
        repeat split; done. }
    rewrite bool_decide_eq_false_2 by done.
    destruct (environ s !! "MINIO_SECRET_KEY") as [sec|] eqn:Hsec.
    2:{ rewrite bool_decide_eq_true_2 by done. intros [= <-].
        exists ["MINIO_ACCESS_KEY"], "MINIO_SECRET_KEY", ["MINIO_HOST"; "MINIO_PORT"].
        repeat split; try done. repeat constructor; eauto. }
    rewrite bool_decide_eq_false_2 by done.
    destruct (environ s !! "MINIO_HOST") as [host|] eqn:Hhost.
    2:{ rewrite bool_decide_eq_true_2 by done. intros [= <-].
        exists ["MINIO_ACCESS_KEY"; "MINIO_SECRET_KEY"], "MINIO_HOST", ["MINIO_PORT"].
        repeat split; try done. repeat constructor; eauto. }
    rewrite bool_decide_eq_false_2 by done.
    destruct (environ s !! "MINIO_PORT") as [port|] eqn:Hport.
    2:{ rewrite bool_decide_eq_true_2 by done. intros [= <-].
        exists ["MINIO_ACCESS_KEY"; "MINIO_SECRET_KEY"; "MINIO_HOST"], "MINIO_PORT", [].
        repeat split; try done. repeat constructor; eauto. }
    rewrite bool_decide_eq_false_2 by done. done.
Qed.

(** ** io_tools.py: reading tables *)

(** X3.  [get_ddf] asks for the MinIO settings before it reads: with a
    variable missing it raises the [KeyError] of [get_s3_settings] and
    [dd.read_csv] is not entered, whatever it would do; with the settings
    [st] at hand its result is that of the one read of
    [s3://<bucket>/<path>] with the fixed options and [st]. *)
Theorem get_ddf_settings_before_read bucket path s :
  (∀ dd_read_csv v, first_missing s = Some v →
     io_tools_frames.get_ddf dd_read_csv bucket path s = (Err (KeyError v), s))
  ∧ (∀ dd_read_csv st, (dask.get_s3_settings s).1 = Ok st →
       io_tools_frames.get_ddf dd_read_csv bucket path s
       = dd_read_csv ("s3://" +:+ bucket +:+ "/" +:+ path) ddf_options st s).
Proof.
  split.
  - intros dd v Hv. unfold io_tools_frames.get_ddf.
    rewrite run_P_bind, get_s3_settings_run, Hv. reflexivity.
  - intros dd st Hst. unfold io_tools_frames.get_ddf.
    rewrite run_P_bind. rewrite get_s3_settings_run in Hst |- *.
    cbn [fst] in Hst. destruct (first_missing s); [done|].
    injection Hst as <-. reflexivity.
Qed.

Lemma append_cons c (r v : string) : String c r +:+ v = String c (r +:+ v).
Proof. reflexivity. Qed.

Lemma append_empty (v : string) : EmptyString +:+ v = v.
Proof. reflexivity. Qed.

Lemma slash_separates b b' p p' :
  has_slash b = false → has_slash b' = false →
  b +:+ "/" +:+ p = b' +:+ "/" +:+ p' → b = b' ∧ p = p'.
Proof.
  revert b'. induction b as [|c b IH]; intros [|c' b'] Hb Hb' Heq;
    rewrite ?append_cons, ?append_empty in Heq; cbn [has_slash] in Hb, Hb'.
  - by injection Heq as ->.
  - injection Heq as <- _. by rewrite bool_decide_eq_true_2 in Hb' by reflexivity.
  - injection Heq as -> _. by rewrite bool_decide_eq_true_2 in Hb by reflexivity.
  - injection Heq as -> Heq.
    apply orb_false_iff in Hb as [_ Hb]. apply orb_false_iff in Hb' as [_ Hb'].
    destruct (IH b' Hb Hb' Heq) as [-> ->]. done.
Qed.

(** X4.  Two tables are read from the same URL only if they are the same
    table: when the bucket names have no slash in them, [minio_path] sends
    different (bucket, path) pairs to different URLs. *)
Theorem minio_path_injective bucket path bucket' path' :
  has_slash bucket = false → has_slash bucket' = false →
  io_tools_frames.minio_path bucket path = io_tools_frames.minio_path bucket' path' →
  bucket = bucket' ∧ path = path'.
Proof.
  intros Hb Hb' Heq. unfold io_tools_frames.minio_path in Heq.
  rewrite !append_cons, !append_empty in Heq. injection Heq as Heq.
  by apply slash_separates.
Qed.

Lemma minio_path_injective_witness :
  "data" = "data" ∧ "a.csv" = "a.csv".
Proof.
  apply (minio_path_injective "data" "a.csv" "data" "a.csv");
    [reflexivity | reflexivity | reflexivity].
Defined.

(** Without the condition on bucket names two different tables can share a
    URL. *)
Example minio_path_slash_in_bucket :
  io_tools_frames.minio_path "a/b" "c" = io_tools_frames.minio_path "a" "b/c".
Proof. reflexivity. Qed.

Lemma alter_last {A} (f : A → A) (l : list A) (x : A) :
  alter f (length l) (l ++ [x]) = l ++ [f x].
Proof. induction l as [|z l IH]; [done|]. cbn. f_equal. exact IH. Qed.

(** X5.  [get_df] never keeps the connection it takes.  For a bucket or an
    object that is not there it raises the client's error and takes none.
    Otherwise it takes one connection, and reading the body on line 32
    gives that connection back before the text is decoded: for text the
    result is that of [pd.read_csv] on it with the fixed options and
    [nrows=rows], for bytes that are not UTF-8 it is [UnicodeDecodeError],
    [pd.read_csv] not being reached, and in both cases the connection ends
    released, [close()] and [release_conn()] on lines 33-34 finding nothing
    left to close.  Connections taken earlier are never touched. *)
Theorem get_df_connection pd_read_csv bucket path rows s :
  io_tools_frames.get_df pd_read_csv bucket path rows s =
  match contents s !! bucket with
  | None => (Err (Exn NoSuchBucket), s)
  | Some objs =>
      match objs !! path with
      | None => (Err (Exn NoSuchKey), s)
      | Some c =>
          (match c with
           | Utf8 text => pd_read_csv text (df_options rows)
           | NotUtf8 => Err UnicodeDecodeError
           end,
           set_connections (λ l, l ++ [ConnReleased]) s)
      end
  end.
Proof.
  unfold io_tools_frames.get_df. rewrite run_P_bind.
  unfold minio_object.get_object.
  destruct (contents s !! bucket) as [objs|]; [|reflexivity].
  destruct (objs !! path) as [c|]; [|reflexivity].
  destruct s as [env dc cl ct cn].
  unfold minio_object.data, minio_object.close, minio_object.release_conn,
    set_connections, lift_answer.
  unfold mbind, P_bind, mret, P_ret. simpl.
  destruct c as [text|]; simpl; rewrite !alter_last; reflexivity.
Qed.

(** ** io_tools.py: distinct values per column *)

Lemma unique_elem_of l x : x ∈ unique l ↔ x ∈ l.
Proof.
  induction l as [|y l IH]; [done|]. cbn [unique].
  rewrite !elem_of_cons, list_elem_of_filter, IH.
  destruct (decide (x = y)); tauto.
Qed.

Lemma unique_NoDup l : NoDup (unique l).
Proof.
  induction l as [|y l IH]; [constructor|]. cbn [unique].
  apply NoDup_cons. split.
  - rewrite list_elem_of_filter. intros [Hne _]. by apply Hne.
  - by apply NoDup_filter.
Qed.

Lemma filter_name_absent (l : list Column) name :
  name ∉ columns l → filter (λ c, col_name c = name) l = [].
Proof.
  induction l as [|c l IH]; [done|]. unfold columns. rewrite fmap_cons, not_elem_of_cons.
  intros [Hne Hnot]. rewrite filter_cons, decide_False by done. by apply IH.
Qed.

Lemma getitem_series (l : list Column) c :
  NoDup (columns l) → c ∈ l → getitem l (col_name c) = Series c.
Proof.
  unfold getitem. induction l as [|c' l IH]; [by intros _ ?%elem_of_nil|].
  unfold columns. rewrite fmap_cons, NoDup_cons. intros [Hnot Hnd] Hin.
  rewrite filter_cons. apply elem_of_cons in Hin as [-> | Hin].
  - rewrite decide_True by done. by rewrite filter_name_absent.
  - rewrite decide_False.
    + by apply IH.
    + intros Heq. apply Hnot. rewrite Heq. by apply list_elem_of_fmap_2.
Qed.

Lemma gather_all_ok {A B} (f : A → B) (l : list A) :
  gather ((λ a, Ok (f a)) <$> l) = Ok (f <$> l).
Proof. induction l as [|a l IH]; [done|]. cbn. by rewrite IH. Qed.

Lemma gather_ok_all {A} (futures : list (answer A)) results :
  gather futures = Ok results → Forall (λ r, ∃ a, r = Ok a) futures.
Proof.
  revert results. induction futures as [|[a|f] l IH]; intros results; [constructor|..].
  - cbn. destruct (gather l) eqn:Hg; [|done]. intros _. constructor; eauto.
  - done.
Qed.

Lemma gather_err_one {A} (futures : list (answer A)) f0 f :
  Forall (λ r, ∀ f', r = Err f' → f' = f0) futures →
  gather futures = Err f → f = f0.
Proof.
  induction 1 as [|[a|f'] l Hr _ IH]; [done|..]; cbn.
  - destruct (gather l); [done|]. intros [= <-]. by apply IH.
  - intros [= <-]. by apply Hr.
Qed.

(** Every non-numeric column is a series of its own only if the names are
    distinct. *)
Lemma all_series_NoDup (l : list Column) :
  Forall (λ c, ∃ c', getitem l (col_name c) = Series c') l → NoDup (columns l).
Proof.
  induction l as [|c l IH]; [constructor|].
  rewrite Forall_cons. intros [[c0 Hc] Hall]. unfold columns. rewrite fmap_cons.
  assert (Hempty : filter (λ c', col_name c' = col_name c) l = []).
  { unfold getitem in Hc. rewrite filter_cons, decide_True in Hc by done.
    destruct (filter _ l); [done|discriminate]. }
  assert (Hnot : col_name c ∉ col_name <$> l).
  { intros (c' & Heq & Hin)%list_elem_of_fmap.
    assert (Hc' : c' ∈ filter (λ c', col_name c' = col_name c) l)
      by (apply list_elem_of_filter; done).
    rewrite Hempty in Hc'. by apply elem_of_nil in Hc'. }
  apply NoDup_cons. split; [exact Hnot|].
  apply IH. rewrite Forall_forall in Hall |- *. intros c' Hin.
  destruct (Hall c' Hin) as [c1 Hc1]. exists c1.
  unfold getitem in Hc1 |- *. rewrite filter_cons, decide_False in Hc1; [done|].
  intros Heq. apply Hnot. rewrite Heq. by apply list_elem_of_fmap_2.
Qed.

Lemma dict_zip_list_to_map {A} (l : list (string * A)) (m : gmap string A) :
  NoDup l.*1 → foldl (λ m kv, <[kv.1 := kv.2]> m) m l = list_to_map l ∪ m.
Proof.
  revert m. induction l as [|[k v] l IH]; intros m; cbn [foldl list_to_map foldr].
  - intros _. by rewrite (left_id_L ∅ (∪)).
  - rewrite fmap_cons, NoDup_cons. intros [Hk Hnd]. rewrite IH by done. cbn.
    rewrite <- insert_union_l, insert_union_r; [done|].
    by apply not_elem_of_list_to_map_1.
Qed.

Lemma zip_fmap_same {A B C} (f : A → B) (g : A → C) (l : list A) :
  zip (f <$> l) (g <$> l) = (λ a, (f a, g a)) <$> l.
Proof. induction l as [|a l IH]; [done|]. cbn. by rewrite IH. Qed.

Lemma get_unique_values_run ddf s :
  io_tools_frames.get_unique_values ddf s =
  let kept := select_dtypes_exclude_number ddf in
  (match gather ((λ col, get_unique (getitem kept col)) <$> columns kept) with
   | Ok results => Ok (dict_zip (columns kept) results)
   | Err f => Err f
   end, (dask.get_client s).2).
Proof.
  unfold io_tools_frames.get_unique_values. cbn zeta.
  rewrite run_P_bind. unfold dask.get_client at 1 3.
  destruct (dask_client s) as [c|] eqn:Hc.
  - rewrite run_P_bind, (get_client_again c s Hc). cbn [snd].
    rewrite run_P_bind. unfold lift_answer. by destruct (gather _).
  - rewrite run_P_bind, (get_client_again _ (set_dask_client _ s) eq_refl). cbn [snd].
    rewrite run_P_bind. unfold lift_answer. by destruct (gather _).
Qed.

(** X6.  [get_unique_values] starts at most the one Dask client and does
    nothing else to the process.  When the non-numeric columns have distinct
    names it returns a dictionary whose keys are exactly their names, each
    mapped to the cells of that column without repetition and without loss.
    When two non-numeric columns share a name it raises, because selecting
    that name gives a frame, which has no [unique]. *)
Theorem get_unique_values_per_column ddf s :
  let kept := select_dtypes_exclude_number ddf in
  (io_tools_frames.get_unique_values ddf s).2 = (dask.get_client s).2
  ∧ (NoDup (columns kept) →
     ∃ d, (io_tools_frames.get_unique_values ddf s).1 = Ok d
          ∧ dom d = list_to_set (columns kept)
          ∧ ∀ c, c ∈ kept →
              ∃ u, d !! col_name c = Some u ∧ NoDup u ∧ ∀ x, x ∈ u ↔ x ∈ cells c)
  ∧ (¬ NoDup (columns kept) →
     (io_tools_frames.get_unique_values ddf s).1
     = Err (Exn (AttributeError "DataFrame" "unique"))).
Proof.
  intros kept. rewrite get_unique_values_run. cbn zeta. fold kept. cbn [fst snd].
  split; [reflexivity|]. split.
  - intros Hnd.
    assert (Hfut : (λ col, get_unique (getitem kept col)) <$> columns kept
                   = (λ c, Ok (unique (cells c))) <$> kept).
    { unfold columns. rewrite <- list_fmap_compose. apply Forall_fmap_ext.
      apply Forall_forall. intros c Hc. cbn. by rewrite getitem_series. }
    rewrite Hfut, gather_all_ok. eexists. split; [reflexivity|].
    unfold dict_zip, columns. rewrite zip_fmap_same.
    assert (Hkeys : ((λ c, (col_name c, unique (cells c))) <$> kept).*1 = col_name <$> kept).
    { rewrite <- list_fmap_compose. done. }
    rewrite dict_zip_list_to_map by (by rewrite Hkeys).
    rewrite (right_id_L ∅ (∪)). split.
    + by rewrite dom_list_to_map_L, Hkeys.
    + intros c Hc. exists (unique (cells c)). split; [|split].
      * apply elem_of_list_to_map_1; [by rewrite Hkeys|].
        apply list_elem_of_fmap. by exists c.
      * apply unique_NoDup.
      * intros x. apply unique_elem_of.
  - intros Hdup.
    destruct (gather _) as [results|f] eqn:Hg.
    + exfalso. apply Hdup. apply all_series_NoDup.
      apply gather_ok_all in Hg. rewrite Forall_fmap in Hg. unfold columns in Hg.
      rewrite Forall_fmap in Hg. rewrite Forall_forall in Hg |- *.
      intros c Hc. destruct (Hg c Hc) as [a Ha]. cbn in Ha.
      destruct (getitem kept (col_name c)) as [c'|]; [eauto|discriminate].
    + f_equal. eapply gather_err_one; [|exact Hg].
      apply Forall_fmap, Forall_forall. intros col _ f'. cbn.
      destruct (getitem kept col); [done|]. by intros [= <-].
Qed.

Example get_unique_values_example :
  (io_tools_frames.get_unique_values
     [ {| col_name := "city"; numeric := false; cells := ["Delft"; "Delft"; "Leiden"] |};
       {| col_name := "year"; numeric := true; cells := ["2021"; "2022"; "2022"] |} ]
     process0).1
  = Ok {[ "city" := ["Delft"; "Leiden"] ]}.
Proof. vm_compute. reflexivity. Qed.

(** * Further properties of the handlers *)

(** ** With the modules as written *)


Lemma table_endpoint_world (missing : string) (guard : bool) (bucket table_path : string)
    (rest : M Response) w :
  ((if guard then mret {| body := Text missing; status := 400 |}
    else
      found ← io_bucket_exists io_tools.module bucket;
      if negb found then mret {| body := Text "Bucket does not exist"; status := 404 |}
      else
        found ← io_table_exists io_tools.module bucket table_path;
        if negb found then mret {| body := Text "Table does not exist"; status := 404 |}
        else rest) w).2 = w.
Proof.
  destruct guard; [reflexivity|].
  erewrite run_bind_return by apply module_bucket_exists_as_written.
  destruct (bool_decide _); cbn [negb]; [|reflexivity].
  erewrite run_bind_raise by apply module_table_exists_as_written. reflexivity.
Qed.

(** X8.  With the modules as written no endpoint changes anything: whatever
    the request, and whatever the collaborators that are not among the
    sources would do, the world after /task-status, /purge,
    /profile-valentine, /add-table and /get-table-csv is the world before.
    For the three table endpoints this holds with any store, since they stop
    at the existence check. *)
Theorem endpoints_as_written_change_nothing request w :
  (∀ gst, (TaskStatus_get redis_tools.module gst request w).2 = w)
  ∧ (∀ del, (Purge_get redis_tools.module del request w).2 = w)
  ∧ (∀ db, (ProfileValentine_get io_tools.module db request w).2 = w)
  ∧ (∀ db, (AddTable_get io_tools.module db request w).2 = w)
  ∧ (∀ int ddf_head_to_csv,
       (GetTableCSV_get io_tools.module int ddf_head_to_csv request w).2 = w).
Proof.
  split; [|split; [|split; [|split]]].
  - intros gst. unfold TaskStatus_get. destruct (negb (truthy _)); reflexivity.
  - intros del. reflexivity.
  - intros db. apply table_endpoint_world.
  - intros db. apply table_endpoint_world.
  - intros int ddf. apply table_endpoint_world.
Qed.

(** ** Over collaborators that meet the interfaces *)

Lemma group_results_seq n header :
  group_results n header = (λ i, AsyncResult (fresh i) None) <$> seq n (length header).
Proof.
  revert n. induction header as [|sg rest IH]; intros n; [reflexivity|].
  cbn [group_results length seq fmap list_fmap]. by rewrite IH.
Qed.

Lemma group_jobs_leaves n bucket ps :
  group_jobs n (leaf_signatures bucket ps) =
  zip_with (λ i p, {| job_id := i; job_sig := Task.s "add_table" [bucket; p];
                      job_after := [] |})
    (fresh <$> seq n (length ps)) ps.
Proof.
  revert n. induction ps as [|p ps IH]; intros n; [reflexivity|].
  unfold leaf_signatures in *. cbn. by rewrite IH.
Qed.

Lemma topology_of_leaves (ids : list string) :
  List.map topology (List.map as_tuple ((λ i, AsyncResult i None) <$> ids))
  = (λ i, MkNode i []) <$> ids.
Proof. induction ids as [|i ids IH]; [reflexivity|]. cbn. by rewrite <- IH. Qed.

Lemma node_ids_of_leaves (ids : list string) :
  concat (List.map node_ids ((λ i, MkNode i []) <$> ids)) = ids.
Proof. induction ids as [|i ids IH]; [reflexivity|]. cbn. by rewrite IH. Qed.

(** X9.  Over a store that meets the interface, a bulk submission for a
    non-empty listing persists, under the identifier it returns, a tree whose
    root is the finalize job and whose children are one childless ingest job
    per unprocessed table, in listing order.  All identifiers of the tree are
    different.  The jobs submitted are exactly these ingest jobs, waiting for
    nothing, followed by the finalize job, which waits for all of them; and
    one message is logged per table that was skipped. *)
Theorem IngestData_get_topology db request bucket paths w :
  StoreSpec db →
  args_get request "bucket" = Some bucket → bucket ≠ EmptyString →
  minio_objects w !! bucket = Some paths → paths ≠ [] →
  ∃ w' f t leaves,
    IngestData_get io_tools.module db request w = (Return (accepted f "Ingestion"), w')
    ∧ celery_tasks w' !! f = Some t
    ∧ topology t = MkNode f ((λ i, MkNode i []) <$> leaves)
    ∧ NoDup (node_ids (topology t))
    ∧ length leaves = length (unprocessed w paths)
    ∧ broker w' = broker w
        ++ zip_with (λ i p, {| job_id := i; job_sig := Task.s "add_table" [bucket; p];
                               job_after := [] |}) leaves (unprocessed w paths)
        ++ [ {| job_id := f; job_sig := Task.si "profile_valentine_all" [bucket];
                job_after := leaves |} ]
    ∧ logged w' = logged w ++ already_processed_messages w paths.
Proof.
  intros Hdb Hreq Hne Hobjs Hpaths.
  pose proof (IngestData_get_submits db request bucket paths w Hdb Hreq Hne Hobjs Hpaths)
    as Hrun. cbn zeta in Hrun.
  set (n := uuid_counter w) in *.
  set (ps := unprocessed w paths) in *.
  assert (Hlen : length (leaf_signatures bucket ps) = length ps)
    by (unfold leaf_signatures; apply length_fmap).
  rewrite Hlen in Hrun.
  set (leaves := fresh <$> seq n (length ps)).
  assert (Hres : group_results n (leaf_signatures bucket ps)
                 = (λ i, AsyncResult i None) <$> leaves).
  { rewrite group_results_seq, Hlen. unfold leaves. by rewrite <- list_fmap_compose. }
  assert (Hids : result_id <$> group_results n (leaf_signatures bucket ps) = leaves).
  { rewrite Hres, <- list_fmap_compose. apply list_fmap_id. }
  rewrite Hids, Hres, group_jobs_leaves in Hrun. fold leaves in Hrun.
  eexists _, (fresh (n + length ps + 1)), _, leaves.
  split; [exact Hrun|].
  split; [apply lookup_insert_eq|].
  assert (Htopo : topology (as_tuple (AsyncResult (fresh (n + length ps + 1))
                     (Some (GroupResult (fresh (n + length ps)) None
                              ((λ i, AsyncResult i None) <$> leaves)))))
                  = MkNode (fresh (n + length ps + 1)) ((λ i, MkNode i []) <$> leaves)).
  { cbn. by rewrite topology_of_leaves. }
  split; [exact Htopo|].
  split.
  { rewrite Htopo. cbn [node_ids]. rewrite node_ids_of_leaves.
    change (NoDup (fresh <$> (n + length ps + 1) :: seq n (length ps))).
    apply (NoDup_fmap_2 fresh). apply NoDup_cons. split; [|apply NoDup_seq].
    rewrite elem_of_seq. lia. }
  split; [unfold leaves; by rewrite length_fmap, length_seq|].
  split; reflexivity.
Qed.

Lemma IngestData_get_topology_witness :
  ∃ w' f t leaves,
    IngestData_get io_tools.module memory_store {| query := [("bucket", "data")] |} world_a
    = (Return (accepted f "Ingestion"), w')
    ∧ celery_tasks w' !! f = Some t
    ∧ topology t = MkNode f ((λ i, MkNode i []) <$> leaves)
    ∧ NoDup (node_ids (topology t))
    ∧ length leaves = length (unprocessed world_a ["a.csv"; "b.csv"])
    ∧ broker w' = broker world_a
        ++ zip_with (λ i p, {| job_id := i; job_sig := Task.s "add_table" ["data"; p];
                               job_after := [] |}) leaves
             (unprocessed world_a ["a.csv"; "b.csv"])
        ++ [ {| job_id := f; job_sig := Task.si "profile_valentine_all" ["data"];
                job_after := leaves |} ]
    ∧ logged w' = logged world_a ++ already_processed_messages world_a ["a.csv"; "b.csv"].
Proof.
  apply (IngestData_get_topology memory_store {| query := [("bucket", "data")] |}
           "data" ["a.csv"; "b.csv"] world_a);
    [split; reflexivity | reflexivity | discriminate | reflexivity | discriminate].
Defined.

(** X10.  Over collaborators that meet the interfaces, star profiling of a
    table that is in the bucket is refused with 403 and without any effect
    as long as the table has no metadata; once it has, exactly one job is
    submitted, called with the bucket and the path, and the topology
    persisted under the identifier returned is that single job. *)
Theorem ProfileValentine_get_star io db request bucket table objs w :
  IoSpec io → StoreSpec db →
  args_get request "bucket" = Some bucket → bucket ≠ EmptyString →
  args_get request "table_path" = Some table → table ≠ EmptyString →
  minio_objects w !! bucket = Some objs → table ∈ objs →
  match table_metadata w !! table with
  | None =>
      ProfileValentine_get io db request w
      = (Return {| body := Text "Table has not been ingested yet"; status := 403 |}, w)
  | Some _ =>
      let i := fresh (uuid_counter w) in
      ∃ w',
        ProfileValentine_get io db request w
        = (Return (accepted i "Valentine Profiling"), w')
        ∧ celery_tasks w' !! i = Some (RTuple i None None)
        ∧ topology (RTuple i None None) = MkNode i []
        ∧ broker w' = broker w
            ++ [ {| job_id := i; job_sig := Task.s "profile_valentine_star" [bucket; table];
                    job_after := [] |} ]
  end.
Proof.
  intros Hio Hdb Hb Hbne Ht Htne Hobjs Hin.
  assert (Hrun :
    ProfileValentine_get io db request w =
    (ingested ← db_table_exists db table;
     if negb ingested then
       mret {| body := Text "Table has not been ingested yet"; status := 403 |}
     else
       task ← celery.apply_async (Task.s "profile_valentine_star" [bucket; table]) [];
       db_save_celery_task db (result_id task) (as_tuple task);;
       mret {| body := Json (task_id_json (result_id task) "Valentine Profiling");
               status := 202 |}) w).
  { unfold ProfileValentine_get. rewrite Hb, Ht, !truthy_Some by done.
    cbn [negb orb default from_option id].
    erewrite run_bind_return by apply (bucket_exists_spec _ Hio).
    rewrite Hobjs, bool_decide_eq_true_2 by eauto. cbn [negb].
    erewrite run_bind_return by (by apply (io_table_exists_spec _ Hio)).
    rewrite bool_decide_eq_true_2 by done. reflexivity. }
  rewrite Hrun.
  erewrite run_bind_return by apply (table_exists_spec _ Hdb).
  destruct (table_metadata w !! table) as [meta|].
  - rewrite bool_decide_eq_true_2 by eauto. cbn [negb]. cbn zeta.
    erewrite run_bind_return by apply apply_async_spec.
    erewrite run_bind_return by apply (save_celery_task_spec _ Hdb).
    eexists. split; [reflexivity|].
    split; [apply lookup_insert_eq|]. split; reflexivity.
  - rewrite bool_decide_eq_false_2 by apply is_Some_None. reflexivity.
Qed.

Lemma ProfileValentine_get_star_witness :
  let i := fresh (uuid_counter world_a) in
  ∃ w',
    ProfileValentine_get io_tools.repaired memory_store
      {| query := [("bucket", "data"); ("table_path", "a.csv")] |} world_a
    = (Return (accepted i "Valentine Profiling"), w')
    ∧ celery_tasks w' !! i = Some (RTuple i None None)
    ∧ topology (RTuple i None None) = MkNode i []
    ∧ broker w' = broker world_a
        ++ [ {| job_id := i; job_sig := Task.s "profile_valentine_star" ["data"; "a.csv"];
                job_after := [] |} ].
Proof.
  apply (ProfileValentine_get_star io_tools.repaired memory_store
           {| query := [("bucket", "data"); ("table_path", "a.csv")] |}
           "data" "a.csv" ["a.csv"; "b.csv"] world_a).
  - exact repaired_io_spec.
  - split; reflexivity.
  - reflexivity.
  - discriminate.
  - reflexivity.
  - discriminate.
  - reflexivity.
  - apply list_elem_of_here.
Defined.

Lemma submission_persists_handle io db request task_id type w w' :
  StoreSpec db →
  IngestData_get io db request w = (Return (accepted task_id type), w')
  ∨ AddTable_get io db request w = (Return (accepted task_id type), w')
  ∨ ProfileValentine_get io db request w = (Return (accepted task_id type), w') →
  ∃ t w1, result_id (result_from_tuple t) = task_id ∧ task_id ≠ EmptyString
          ∧ w' = set_celery_tasks <[task_id := t]> w1.
Proof.
  intros Hdb [H|[H|H]]; revert H.
  - unfold IngestData_get.
    destruct (negb (truthy _)); [by intros [=]|].
    rewrite run_bind. destruct (io_bucket_exists io _ w) as [[[]|e] w1]; simpl;
      [|by intros [=]..].
    rewrite run_bind. destruct (io_get_tables io _ w1) as [[paths|e] w2]; simpl;
      [|by intros [=]].
    case_bool_decide; [by intros [=]|].
    erewrite run_bind_return by apply (ingest_header_spec _ _ _ _ _ Hdb).
    erewrite run_bind_return by apply chord_spec.
    erewrite run_bind_return by reflexivity.
    erewrite run_bind_return by apply (save_celery_task_spec _ Hdb).
    rewrite run_ret. intros [= <- <- <-].
    refine (ex_intro _ _ (ex_intro _ _ (conj _ (conj _ eq_refl))));
      [reflexivity | apply fresh_nonempty].
  - unfold AddTable_get.
    destruct (negb (truthy _) || negb (truthy _)); [by intros [=]|].
    rewrite run_bind. destruct (io_bucket_exists io _ w) as [[[]|e] w1]; simpl;
      [|by intros [=]..].
    rewrite run_bind. destruct (io_table_exists io _ _ w1) as [[[]|e] w2]; simpl;
      [|by intros [=]..].
    erewrite run_bind_return by apply (get_table_spec _ Hdb).
    case_bool_decide; [by intros [=]|].
    erewrite run_bind_return by apply chain_two_spec.
    erewrite run_bind_return by apply (save_celery_task_spec _ Hdb).
    rewrite run_ret. intros [= <- <- <-].
    refine (ex_intro _ _ (ex_intro _ _ (conj _ (conj _ eq_refl))));
      [reflexivity | apply fresh_nonempty].
  - unfold ProfileValentine_get.
    destruct (negb (truthy _) || negb (truthy _)); [by intros [=]|].
    rewrite run_bind. destruct (io_bucket_exists io _ w) as [[[]|e] w1]; simpl;
      [|by intros [=]..].
    rewrite run_bind. destruct (io_table_exists io _ _ w1) as [[[]|e] w2]; simpl;
      [|by intros [=]..].
    erewrite run_bind_return by apply (table_exists_spec _ Hdb).
    destruct (bool_decide _); simpl; [|by intros [=]].
    erewrite run_bind_return by apply apply_async_spec.
    erewrite run_bind_return by apply (save_celery_task_spec _ Hdb).
    rewrite run_ret. intros [= <- <- <-].
    refine (ex_intro _ _ (ex_intro _ _ (conj _ (conj _ eq_refl))));
      [reflexivity | apply fresh_nonempty].
Qed.

(** X11.  Submitting and then asking: over a store that meets the interface,
    when a submission has answered with an identifier, a status query for
    that identifier in the world the submission left runs the status
    reconstruction on a handle that carries this identifier and is the one
    whose tuple was persisted, and answers 200 with whatever tree the
    reconstruction returns; its only other result is a failure of the
    reconstruction itself. *)
Theorem status_query_reads_back_handle io db gst request poll task_id type w w' :
  StoreSpec db →
  IngestData_get io db request w = (Return (accepted task_id type), w')
  ∨ AddTable_get io db request w = (Return (accepted task_id type), w')
  ∨ ProfileValentine_get io db request w = (Return (accepted task_id type), w') →
  args_get poll "task_id" = Some task_id →
  ∃ r,
    result_id r = task_id
    ∧ celery_tasks w' !! task_id = Some (as_tuple r)
    ∧ TaskStatus_get db gst poll w'
      = (tree ← gst r; mret {| body := Json tree; status := 200 |}) w'.
Proof.
  intros Hdb Hsub Hpoll.
  destruct (submission_persists_handle io db request task_id type w w' Hdb Hsub)
    as (t & w1 & Hid & Hne & ->).
  exists (result_from_tuple t). split; [exact Hid|].
  split; [by rewrite as_tuple_result_from_tuple; apply lookup_insert_eq|].
  unfold TaskStatus_get. rewrite Hpoll, truthy_Some by done.
  cbn [negb default from_option id].
  erewrite run_bind_return by apply (get_celery_task_spec _ Hdb).
  cbn [celery_tasks set_celery_tasks]. by rewrite lookup_insert_eq.
Qed.

Lemma status_query_reads_back_handle_witness :
  ∃ r,
    result_id r = "task-1"
    ∧ celery_tasks
        (AddTable_get io_tools.repaired memory_store
           {| query := [("bucket", "data"); ("table_path", "b.csv")] |} world_a).2
      !! "task-1" = Some (as_tuple r)
    ∧ TaskStatus_get memory_store generate_status_tree
        {| query := [("task_id", "task-1")] |}
        (AddTable_get io_tools.repaired memory_store
           {| query := [("bucket", "data"); ("table_path", "b.csv")] |} world_a).2
      = (tree ← generate_status_tree r; mret {| body := Json tree; status := 200 |})
          (AddTable_get io_tools.repaired memory_store
             {| query := [("bucket", "data"); ("table_path", "b.csv")] |} world_a).2.
Proof.
  apply (status_query_reads_back_handle io_tools.repaired memory_store generate_status_tree
           {| query := [("bucket", "data"); ("table_path", "b.csv")] |}
           {| query := [("task_id", "task-1")] |} "task-1" "Single Ingestion" world_a);
    [split; reflexivity | right; left; vm_compute; reflexivity | reflexivity].
Defined.

(** ** Persist, then return: what is persisted *)

Lemma io_tools_module_reads_only : reads_only io_tools.module.
Proof.
  split; [reflexivity|]. split; [reflexivity|].
  intros b w. change (io_get_tables io_tools.module b w) with (minio_client.list_objects b w).
  unfold minio_client.list_objects. by destruct (minio_objects w !! b).
Qed.

Lemma io_tools_repaired_reads_only : reads_only io_tools.repaired.
Proof.
  split; [reflexivity|]. split; [|apply io_tools_module_reads_only].
  intros b p w.
  change (io_table_exists io_tools.repaired b p w)
    with (try_except (minio_client.stat_object (VStr b) (VStr p);; mret true)
            (λ e, if decide (e = NoSuchKey) then Some (mret false) else None) w).
  unfold try_except, minio_client.stat_object. rewrite run_bind.
  destruct (minio_objects w !! b) as [l|]; [|reflexivity].
  by destruct (bool_decide (p ∈ l)).
Qed.










Lemma unprocessed_empty_metadata w paths :
  table_metadata w = ∅ → unprocessed w paths = paths.
Proof.
  intros Hempty. apply unprocessed_all, Forall_forall. intros p _.
  by rewrite Hempty, lookup_empty.
Qed.

(** X12.  Over a store that meets the interface, /purge empties the store
    before it touches the graph: as long as [delete_all_nodes] leaves the
    store alone, then whether it returns or raises, after /purge no topology
    and no unit metadata are left, so every status query is answered "Task
    does not exist" and the idempotency gate lets every listed table through
    again.  The only response /purge itself gives is 200 "Success". *)
Theorem Purge_get_empties_store db del gst request w :
  StoreSpec db →
  (∀ w0, celery_tasks (del w0).2 = celery_tasks w0
         ∧ table_metadata (del w0).2 = table_metadata w0) →
  celery_tasks (Purge_get db del request w).2 = ∅
  ∧ table_metadata (Purge_get db del request w).2 = ∅
  ∧ (∀ resp, (Purge_get db del request w).1 = Return resp →
       resp = {| body := Text "Success"; status := 200 |})
  ∧ (∀ poll task_id,
       args_get poll "task_id" = Some task_id → task_id ≠ EmptyString →
       TaskStatus_get db gst poll (Purge_get db del request w).2
       = (Return not_found, (Purge_get db del request w).2))
  ∧ (∀ paths, unprocessed (Purge_get db del request w).2 paths = paths).
Proof.
  intros Hdb Hdel.
  set (purged := set_celery_tasks (λ _, ∅) (set_table_metadata (λ _, ∅) w)).
  assert (Hrun : Purge_get db del request w =
                 match del purged with
                 | (Return _, w2) => (Return {| body := Text "Success"; status := 200 |}, w2)
                 | (Raise e, w2) => (Raise e, w2)
                 end).
  { unfold Purge_get. erewrite run_bind_return by apply (purge_spec _ Hdb).
    rewrite run_bind. fold purged. by destruct (del purged) as [[[]|e] w2]. }
  assert (Hworld : (Purge_get db del request w).2 = (del purged).2).
  { rewrite Hrun. by destruct (del purged) as [[[]|e] w2]. }
  destruct (Hdel purged) as [Htasks Hmeta].
  assert (Ht : celery_tasks (Purge_get db del request w).2 = ∅) by (by rewrite Hworld, Htasks).
  assert (Hm : table_metadata (Purge_get db del request w).2 = ∅) by (by rewrite Hworld, Hmeta).
  split; [exact Ht|]. split; [exact Hm|]. split; [|split].
  - intros resp. rewrite Hrun. destruct (del purged) as [[[]|e] w2]; by intros [= <-].
  - intros poll task_id Hpoll Hne.
    apply (TaskStatus_get_unknown_id db gst poll task_id); try done.
    by rewrite Ht, lookup_empty.
  - intros paths. by apply unprocessed_empty_metadata.
Qed.

Lemma Purge_get_empties_store_witness :
  celery_tasks (Purge_get memory_store (graph_unreachable) {| query := [] |}
                  world_submitted).2 = ∅
  ∧ table_metadata (Purge_get memory_store (graph_unreachable) {| query := [] |}
                      world_submitted).2 = ∅
  ∧ (∀ resp, (Purge_get memory_store (graph_unreachable) {| query := [] |}
                world_submitted).1 = Return resp →
       resp = {| body := Text "Success"; status := 200 |})
  ∧ (∀ poll task_id,
       args_get poll "task_id" = Some task_id → task_id ≠ EmptyString →
       TaskStatus_get memory_store generate_status_tree poll
         (Purge_get memory_store (graph_unreachable) {| query := [] |}
            world_submitted).2
       = (Return not_found,
          (Purge_get memory_store (graph_unreachable) {| query := [] |}
             world_submitted).2))
  ∧ (∀ paths,
       unprocessed (Purge_get memory_store (graph_unreachable) {| query := [] |}
                      world_submitted).2 paths = paths).
Proof.
  apply (Purge_get_empties_store memory_store (graph_unreachable)
           generate_status_tree {| query := [] |} world_submitted);
    [split; reflexivity | intros w0; split; reflexivity].
Defined.

(** ** The graph endpoints *)

(** X13.  /get-related answers 200 only for two non-empty, different table
    paths for each of which the node lookup, made in that order, found at
    least one node; the body is then the result of the path query for
    exactly this pair. *)
Theorem GetRelatedNodes_get_success nodes related request w resp w' :
  GetRelatedNodes_get nodes related request w = (Return resp, w') →
  status resp = 200 →
  ∃ src tgt n1 w1 n2 w2 paths,
    args_get request "source_table_path" = Some src
    ∧ args_get request "target_table_path" = Some tgt
    ∧ src ≠ EmptyString ∧ tgt ≠ EmptyString ∧ src ≠ tgt
    ∧ nodes src w = (Return n1, w1) ∧ n1 ≠ []
    ∧ nodes tgt w1 = (Return n2, w2) ∧ n2 ≠ []
    ∧ related src tgt w2 = (Return paths, w')
    ∧ resp = {| body := Json (JObject [("RelatedTables", paths)]); status := 200 |}.
Proof.
  unfold GetRelatedNodes_get, truthy.
  destruct (args_get request "source_table_path") as [src|]; [|by intros [= <- _]].
  destruct (args_get request "target_table_path") as [tgt|];
    [|rewrite orb_true_r; by intros [= <- _]].
  destruct (decide (src = EmptyString)) as [-> | Hsrc]; [by intros [= <- _]|].
  destruct (decide (tgt = EmptyString)) as [-> | Htgt].
  { rewrite orb_true_r. by intros [= <- _]. }
  rewrite !bool_decide_eq_false_2 by done. cbn [negb orb default from_option id].
  case_bool_decide as Heq; [by intros [= <- _]|].
  rewrite run_bind. destruct (nodes src w) as [[n1|e] w1] eqn:H1; [|by intros [=]].
  case_bool_decide as Hn1; [by intros [= <- _]|].
  rewrite run_bind. destruct (nodes tgt w1) as [[n2|e] w2] eqn:H2; [|by intros [=]].
  case_bool_decide as Hn2; [by intros [= <- _]|].
  rewrite run_bind. destruct (related src tgt w2) as [[paths|e] w3] eqn:H3; [|by intros [=]].
  intros [= <- <-] _.
  exists src, tgt, n1, w1, n2, w2, paths.
  repeat (split; [done|]). split; [by destruct n1|].
  split; [done|]. split; [by destruct n2|]. done.
Qed.

Lemma GetRelatedNodes_get_success_witness :
  ∃ src tgt n1 w1 n2 w2 paths,
    args_get {| query := [("source_table_path", "a.csv"); ("target_table_path", "b.csv")] |}
      "source_table_path" = Some src
    ∧ args_get {| query := [("source_table_path", "a.csv"); ("target_table_path", "b.csv")] |}
        "target_table_path" = Some tgt
    ∧ src ≠ EmptyString ∧ tgt ≠ EmptyString ∧ src ≠ tgt
    ∧ every_table_has_a_node src world0 = (Return n1, w1) ∧ n1 ≠ []
    ∧ every_table_has_a_node tgt w1 = (Return n2, w2) ∧ n2 ≠ []
    ∧ no_relations src tgt w2 = (Return paths, world0)
    ∧ {| body := Json (JObject [("RelatedTables", JArray [])]); status := 200 |}
      = {| body := Json (JObject [("RelatedTables", paths)]); status := 200 |}.
Proof.
  apply (GetRelatedNodes_get_success every_table_has_a_node no_relations
           {| query := [("source_table_path", "a.csv"); ("target_table_path", "b.csv")] |}
           world0 _ world0); reflexivity.
Defined.

(** X14.  /get-joinable answers 400 exactly when the request has no
    [table_path] parameter at all: an empty path is looked up like any
    other.  It answers 200 only when the lookup found a node. *)
Theorem GetJoinable_get_statuses nodes joinable request w :
  (args_get request "table_path" = None
   ↔ ∃ resp, (GetJoinable_get nodes joinable request w).1 = Return resp
             ∧ status resp = 400)
  ∧ (∀ resp, (GetJoinable_get nodes joinable request w).1 = Return resp →
       status resp = 200 →
       ∃ table n w1,
         args_get request "table_path" = Some table
         ∧ nodes table w = (Return n, w1) ∧ n ≠ []).
Proof.
  unfold GetJoinable_get.
  destruct (args_get request "table_path") as [table|].
  - rewrite run_bind. destruct (nodes table w) as [[n|e] w1] eqn:Hn.
    + case_bool_decide as Hlen.
      * split; [split; [done|by intros (resp & [= <-] & ?)]|by intros resp [= <-]].
      * rewrite run_bind. destruct (joinable table w1) as [[j|e] w2].
        -- split; [split; [done|by intros (resp & [= <-] & ?)]|].
           intros resp _ _. exists table, n, w1. repeat split; try done. by destruct n.
        -- split; [split; [done|by intros (resp & [=] & ?)]|by intros resp [=]].
    + split; [split; [done|by intros (resp & [=] & ?)]|by intros resp [=]].
  - split; [|by intros resp [= <-]].
    split; [|done]. intros _. eexists. split; reflexivity.
Qed.
